(** * Verification model of Convert32bitWavTo24or16Bit

    Shallow embedding of the three scripts of the repository:
    - [caf_to_wav_gui.py]: batch CAF -> WAV transcoding through ffmpeg,
      with a cancellation flag and converted/skipped/error counters;
    - [wav_bit_depth_converter.py]: 32-bit WAV -> 24/16-bit downconversion
      through soundfile;
    - [caf_to_wav32.py]: command-line CAF -> 32-bit float WAV.

    Paths are lists of components ([os.path.join] is list append,
    [os.path.dirname] drops the last component, [os.path.basename] takes it).
    The filesystem is an association list from paths to contents, newest
    entry first.  ffmpeg, soundfile and [os.makedirs] are the environment:
    they are section variables, with their few assumed properties stated as
    hypotheses where a theorem needs them. *)

From Stdlib Require Import String Ascii List Bool Arith Lia ZArith.
Import ListNotations.
Open Scope string_scope.

(** ** Python string helpers *)

Module Py.

(** [str.lower] on ASCII letters. *)
Definition lower_char (c : ascii) : ascii :=
  let n := nat_of_ascii c in
  if (65 <=? n)%nat && (n <=? 90)%nat then ascii_of_nat (n + 32)%nat else c.

Fixpoint lower (s : string) : string :=
  match s with
  | EmptyString => EmptyString
  | String c s' => String (lower_char c) (lower s')
  end.

(** [s.startswith(p)] *)
Definition startswith (s p : string) : bool := String.prefix p s.

(** [s.endswith(suf)] *)
Definition endswith (s suf : string) : bool :=
  (String.length suf <=? String.length s)%nat &&
  String.eqb (substring (String.length s - String.length suf)%nat
                        (String.length suf) s) suf.

(** [pat in s] *)
Fixpoint contains (pat s : string) : bool :=
  String.prefix pat s ||
  match s with
  | EmptyString => false
  | String _ s' => contains pat s'
  end.

(** [s.rfind(c)] for a single character. *)
Fixpoint rfind (c : ascii) (s : string) : option nat :=
  match s with
  | EmptyString => None
  | String d s' =>
      match rfind c s' with
      | Some i => Some (S i)
      | None => if Ascii.eqb c d then Some 0 else None
      end
  end.

(** [s.split(sep)] for a single-character separator. *)
Fixpoint split (sep : ascii) (s : string) : list string :=
  match s with
  | EmptyString => [EmptyString]
  | String c s' =>
      match split sep s' with
      | [] => [String c EmptyString]
      | w :: ws =>
          if Ascii.eqb c sep then EmptyString :: w :: ws
          else String c w :: ws
      end
  end.

(** [sep.join(xs)] *)
Fixpoint join (sep : string) (xs : list string) : string :=
  match xs with
  | [] => EmptyString
  | [x] => x
  | x :: xs' => x ++ sep ++ join sep xs'
  end.

(** [xs[-n:]] *)
Definition last_n {A} (n : nat) (xs : list A) : list A :=
  skipn (length xs - n)%nat xs.

(** Iterating over a string, as [' '.join(s)] does when [s] is a string. *)
Fixpoint chars (s : string) : list string :=
  match s with
  | EmptyString => []
  | String c s' => String c EmptyString :: chars s'
  end.

(** [str.strip()] on ASCII whitespace. *)
Definition is_space (c : ascii) : bool :=
  let n := nat_of_ascii c in
  (n =? 32)%nat || ((9 <=? n)%nat && (n <=? 13)%nat).

Fixpoint lstrip (s : string) : string :=
  match s with
  | EmptyString => EmptyString
  | String c s' => if is_space c then lstrip s' else s
  end.

Definition rev_string (s : string) : string :=
  string_of_list_ascii (rev (list_ascii_of_string s)).

Definition strip (s : string) : string :=
  rev_string (lstrip (rev_string (lstrip s))).

End Py.

(** ** Paths: [os.path] on a list of components *)

Module OsPath.

Definition path := list string.

Fixpoint path_eqb (p q : path) : bool :=
  match p, q with
  | [], [] => true
  | a :: p', b :: q' => String.eqb a b && path_eqb p' q'
  | _, _ => false
  end.

Definition join (a b : path) : path := (a ++ b)%list.
Definition dirname (p : path) : path := removelast p.
Definition basename (p : path) : string := last p EmptyString.

(** [os.path.splitext] on a file name: the extension starts at the last
    dot, unless all characters before that dot are dots. *)
Definition splitext_name (name : string) : string * string :=
  match Py.rfind "."%char name with
  | None => (name, EmptyString)
  | Some i =>
      let pre := substring 0 i name in
      if forallb (Ascii.eqb "."%char) (list_ascii_of_string pre)
      then (name, EmptyString)
      else (pre, substring i (String.length name - i)%nat name)
  end.

(** [os.path.splitext(p)[0]]: only the last component is affected. *)
Definition splitext_root (p : path) : path :=
  (removelast p ++ [fst (splitext_name (basename p))])%list.

(** [os.path.splitext(p)[0] + ext] *)
Definition with_ext (p : path) (ext : string) : path :=
  app (removelast p) [fst (splitext_name (basename p)) ++ ext].

(** [pathlib.PurePath.stem] *)
Definition stem (name : string) : string :=
  match Py.rfind "."%char name with
  | Some i => if (0 <? i)%nat && (i <? String.length name - 1)%nat
              then substring 0 i name else name
  | None => name
  end.

Fixpoint common_len (p q : path) : nat :=
  match p, q with
  | a :: p', b :: q' => if String.eqb a b then S (common_len p' q') else 0
  | _, _ => 0
  end.

(** [os.path.relpath(p, start)] on normalised absolute paths. *)
Definition relpath (p start : path) : path :=
  let i := common_len start p in
  let rel := (repeat ".." (length start - i) ++ skipn i p)%list in
  match rel with [] => ["."] | _ => rel end.

End OsPath.

Import OsPath.

(** ** Filesystem, processes and events *)

(** A filesystem: files by path with their contents, newest entry first. *)
Definition fs := list (path * string).

Definition fs_exists (f : fs) (p : path) : bool :=
  existsb (fun e => path_eqb (fst e) p) f.

Fixpoint fs_lookup (f : fs) (p : path) : option string :=
  match f with
  | [] => None
  | (q, d) :: f' => if path_eqb q p then Some d else fs_lookup f' p
  end.

(** An argument of a [subprocess.run] command line. *)
Inductive arg := AStr (s : string) | APath (p : path).

(** What [subprocess.run] gives back: it raised, or the process completed
    with a new filesystem, a return code and its standard error text. *)
Inductive proc_result :=
| Raised (msg : string)
| Completed (f : fs) (returncode : Z) (stderr : string).

(** Observable events of a run. *)
Inductive event :=
| EvPoll (i : nat)                             (* the cancellation flag is read before job [i] *)
| EvCancelled                                  (* the loop took its [break] *)
| EvInvoke (cmd : list arg)                    (* ffmpeg is started *)
| EvOutcome (i : nat) (src : path) (status : string)
| EvRead (p : path)                            (* [sf.read] is called *)
| EvWrite (p : path) (subtype : string)        (* [sf.write] is called *)
| EvClassifyError (p : path)                   (* [get_bit_depth] caught an exception *)
| EvJob (src dst : path) (target_bits : Z) (ok : bool).  (* one [convert_file] call *)

Definition is_poll (e : event) : bool :=
  match e with EvPoll _ => true | _ => false end.
Definition is_outcome (e : event) : bool :=
  match e with EvOutcome _ _ _ => true | _ => false end.
Definition is_invoke (e : event) : bool :=
  match e with EvInvoke _ => true | _ => false end.
Definition is_cancelled (e : event) : bool :=
  match e with EvCancelled => true | _ => false end.
Definition is_job (e : event) : bool :=
  match e with EvJob _ _ _ _ => true | _ => false end.
Definition is_classify_error (e : event) : bool :=
  match e with EvClassifyError _ => true | _ => false end.

(** ** [caf_to_wav_gui.py] *)

Module CafGui.

Record config := {
  selected_directory : path;
  output_directory : option path;
  bit_depth : string;
  trim_silence : bool;
  overwrite : bool;             (* [overwrite_var.get()] *)
  ffmpeg_available : bool
}.

(** [find_caf_files]: the files listed by [os.walk], in walk order, whose
    lower-cased name ends with [.caf]. *)
Definition find_caf_files (walk : list path) : list path :=
  filter (fun p => Py.endswith (Py.lower (basename p)) ".caf") walk.

Definition silence_filter : string :=
  "silenceremove=start_periods=1:start_duration=0:start_threshold=-50dB".

Definition duration_info (err : string) : string :=
  if Py.contains "Duration:" err then
    match find (Py.contains "Duration:") (Py.split "010"%char err) with
    | Some line => Py.strip line
    | None => EmptyString
    end
  else EmptyString.

(** [result.stderr.split('\n')[-3:] if result.stderr else "Unknown error"],
    as the list that [' '.join] then iterates over. *)
Definition error_msg (err : string) : list string :=
  if String.eqb err EmptyString then Py.chars "Unknown error"
  else Py.last_n 3 (Py.split "010"%char err).

(** A job result [(wav_path, status, info)]. *)
Definition result := (option path * string * string)%type.

Section Gui.

Variable run_ffmpeg : fs -> list arg -> proc_result.
(** [os.makedirs(d, exist_ok=True)]: the new filesystem, or the text of the
    exception it raised. *)
Variable makedirs : fs -> path -> fs + string.

Variable cfg : config.

Definition ffmpeg_cmd (caf_path wav_path : path) (bd : string) (trim : bool)
  : list arg :=
  let codec := if String.eqb bd "24" then "pcm_s24le" else "pcm_f32le" in
  let filters := if trim then [silence_filter] else [] in
  ([AStr "ffmpeg"; AStr "-i"; APath caf_path]
   ++ (match filters with
       | [] => []
       | _ => [AStr "-af"; AStr (Py.join "," filters)]
       end)
   ++ [AStr "-acodec"; AStr codec;
       AStr (if overwrite cfg then "-y" else "-n"); APath wav_path])%list.

Definition convert_with_ffmpeg (f : fs) (caf_path wav_path : path)
    (bd : string) (trim : bool) : fs * result * list event :=
  let cmd := ffmpeg_cmd caf_path wav_path bd trim in
  match run_ffmpeg f cmd with
  | Raised msg => (f, (None, "Exception: " ++ msg, EmptyString), [EvInvoke cmd])
  | Completed f' rc err =>
      if Z.eqb rc 0 then
        (f', (Some wav_path, "success", duration_info err), [EvInvoke cmd])
      else if Py.contains "already exists" err then
        (f', (None, "skipped (already exists)", EmptyString), [EvInvoke cmd])
      else
        (f', (None, "FFmpeg error: " ++ Py.join " " (error_msg err), EmptyString),
         [EvInvoke cmd])
  end.

(** The destination computed at the top of [convert_caf_to_wav]. *)
Definition wav_target (caf_path : path) : path :=
  match output_directory cfg with
  | Some ((_ :: _) as out) =>
      join out (with_ext (relpath caf_path (selected_directory cfg)) ".wav")
  | _ => with_ext caf_path ".wav"
  end.

(** The part of a source path that decides its destination: the path
    (relative to the source root when an output root is set) without its
    extension. *)
Definition dest_key (caf_path : path) : path :=
  match output_directory cfg with
  | Some (_ :: _) => splitext_root (relpath caf_path (selected_directory cfg))
  | _ => splitext_root caf_path
  end.

Definition convert_after_mkdirs (f : fs) (caf_path wav_path : path)
    (bd : string) (trim : bool) : fs * result * list event :=
  if fs_exists f wav_path && negb (overwrite cfg) then
    (f, (Some wav_path, "skipped (already exists)", EmptyString), [])
  else if negb (ffmpeg_available cfg) then
    (f, (None, "error: FFmpeg not available", EmptyString), [])
  else convert_with_ffmpeg f caf_path wav_path bd trim.

Definition convert_caf_to_wav (f : fs) (caf_path : path) (bd : string)
    (trim : bool) : fs * result * list event :=
  let wav_path := wav_target caf_path in
  match output_directory cfg with
  | Some (_ :: _) =>
      match makedirs f (dirname wav_path) with
      | inr msg => (f, (None, "error: " ++ msg, EmptyString), [])
      | inl f1 => convert_after_mkdirs f1 caf_path wav_path bd trim
      end
  | _ => convert_after_mkdirs f caf_path wav_path bd trim
  end.

Definition status_of (r : result) : string :=
  let '(_, st, _) := r in st.

(** The counter that a status increments: 0 converted, 1 skipped, 2 error. *)
Definition bump (st : string) (c : nat * nat * nat) : nat * nat * nat :=
  let '(cv, sk, er) := c in
  if String.eqb st "success" then (S cv, sk, er)
  else if Py.startswith st "skipped" then (cv, S sk, er)
  else (cv, sk, S er).

(** The [for i, caf_path in enumerate(caf_files)] loop; [running i] is the
    value of [self.conversion_running] read before job [i]. *)
Fixpoint convert_loop (running : nat -> bool) (bd : string) (trim : bool)
    (i : nat) (files : list path) (f : fs) (c : nat * nat * nat)
    : fs * (nat * nat * nat) * list event :=
  match files with
  | [] => (f, c, [])
  | caf_path :: rest =>
      if negb (running i) then (f, c, [EvPoll i; EvCancelled])
      else
        let '(f1, r, evs) := convert_caf_to_wav f caf_path bd trim in
        let st := status_of r in
        let '(f2, c2, tr) :=
          convert_loop running bd trim (S i) rest f1 (bump st c) in
        (f2, c2, (EvPoll i :: evs ++ EvOutcome i caf_path st :: tr)%list)
  end.

Record run_result := {
  final_fs : fs;
  converted : nat;
  skipped : nat;
  errors : nat;
  planned : nat;          (* [len(caf_files)], the progress bar maximum *)
  trace : list event
}.

Definition conversion_thread (f : fs) (walk : list path)
    (running : nat -> bool) : run_result :=
  if negb (ffmpeg_available cfg) then
    {| final_fs := f; converted := 0; skipped := 0; errors := 0;
       planned := 0; trace := [] |}
  else
    let caf_files := find_caf_files walk in
    match caf_files with
    | [] => {| final_fs := f; converted := 0; skipped := 0; errors := 0;
               planned := 0; trace := [] |}
    | _ =>
      let '(f', (cv, sk, er), tr) :=
        convert_loop running (bit_depth cfg) (trim_silence cfg) 0 caf_files f
          (0, 0, 0) in
      {| final_fs := f'; converted := cv; skipped := sk; errors := er;
         planned := length caf_files; trace := tr |}
    end.

End Gui.

Definition attempted (r : run_result) : nat := length (filter is_outcome (trace r)).
Definition cancelled (r : run_result) : bool := existsb is_cancelled (trace r).

End CafGui.

(** ** [wav_bit_depth_converter.py] *)

Module WavDown.

(** [find_wav_files]: with subdirectories, the files listed by [os.walk];
    without, the names listed by [os.listdir(folder)]; both filtered on a
    lower-cased [.wav] ending. *)
Definition find_wav_files (folder : path) (walk : list path)
    (listing : list string) (include_subdirs : bool) : list path :=
  if include_subdirs then
    filter (fun p => Py.endswith (Py.lower (basename p)) ".wav") walk
  else
    map (fun name => join folder [name])
        (filter (fun name => Py.endswith (Py.lower name) ".wav") listing).

(** The subtype to bit depth table of [get_bit_depth]. *)
Definition bits_of_subtype (subtype : string) : Z :=
  if Py.contains "PCM_32" subtype || Py.contains "FLOAT" subtype then 32
  else if Py.contains "PCM_24" subtype then 24
  else if Py.contains "PCM_16" subtype then 16
  else if Py.contains "PCM_8" subtype then 8
  else 0.

(** [os.path.join(os.path.dirname(f), sub, os.path.basename(f))] *)
Definition down_target (wav_file : path) (sub : string) : path :=
  join (join (dirname wav_file) [sub]) [basename wav_file].

Record run_result := {
  final_fs : fs;
  found : nat;          (* [len(wav_files)] *)
  found_32bit : nat;    (* [len(files_32bit)] *)
  trace : list event
}.

Section Down.

(** [sf.info(p).subtype], or [None] when it raises. *)
Variable sf_info : fs -> path -> option string.
(** [sf.read(p, dtype='float32')], or [None] when it raises. *)
Variable sf_read : fs -> path -> option string.
(** [sf.write(p, data, samplerate, subtype=...)], or [None] when it raises. *)
Variable sf_write : fs -> path -> string -> string -> option fs.
Variable makedirs : fs -> path -> fs + string.

Definition get_bit_depth (f : fs) (file_path : path) : Z * list event :=
  match sf_info f file_path with
  | None => (0%Z, [EvClassifyError file_path])
  | Some subtype => (bits_of_subtype subtype, [])
  end.

Definition convert_file (f : fs) (input_path output_path : path)
    (target_bits : Z) : bool * fs * list event :=
  match sf_read f input_path with
  | None => (false, f, [EvRead input_path])
  | Some data =>
      let subtype :=
        if Z.eqb target_bits 24 then Some "PCM_24"
        else if Z.eqb target_bits 16 then Some "PCM_16"
        else None in
      match subtype with
      | None => (false, f, [EvRead input_path])
      | Some st =>
          match makedirs f (dirname output_path) with
          | inr _ => (false, f, [EvRead input_path])
          | inl f1 =>
              match sf_write f1 output_path data st with
              | None => (false, f1, [EvRead input_path; EvWrite output_path st])
              | Some f2 => (true, f2, [EvRead input_path; EvWrite output_path st])
              end
          end
      end
  end.

(** The filter loop [if bit_depth == 32: files_32bit.append(wav_file)]. *)
Fixpoint filter_32bit (f : fs) (files : list path) : list path * list event :=
  match files with
  | [] => ([], [])
  | w :: rest =>
      let '(b, evs) := get_bit_depth f w in
      let '(keep, evs') := filter_32bit f rest in
      ((if Z.eqb b 32 then w :: keep else keep), (evs ++ evs')%list)
  end.

(** One [convert_file] call, recorded as a job event. *)
Definition job (f : fs) (wav_file : path) (sub : string) (bits : Z)
    : fs * list event :=
  let out := down_target wav_file sub in
  let '(ok, f1, evs) := convert_file f wav_file out bits in
  (f1, (evs ++ [EvJob wav_file out bits ok])%list).

(** The [for wav_file in files_32bit] loop. *)
Fixpoint convert_loop (to24 to16 : bool) (files : list path) (f : fs)
    : fs * list event :=
  match files with
  | [] => (f, [])
  | w :: rest =>
      let '(f1, e1) := if to24 then job f w "24bit" 24 else (f, []) in
      let '(f2, e2) := if to16 then job f1 w "16bit" 16 else (f1, []) in
      let '(f3, e3) := convert_loop to24 to16 rest f2 in
      (f3, (e1 ++ e2 ++ e3)%list)
  end.

Definition process_files (f : fs) (folder : path) (walk : list path)
    (listing : list string) (include_subdirs to24 to16 : bool) : run_result :=
  let wav_files := find_wav_files folder walk listing include_subdirs in
  match wav_files with
  | [] => {| final_fs := f; found := 0; found_32bit := 0; trace := [] |}
  | _ =>
      let '(files_32bit, evs) := filter_32bit f wav_files in
      match files_32bit with
      | [] => {| final_fs := f; found := length wav_files; found_32bit := 0;
                 trace := evs |}
      | _ =>
          let '(f', tr) := convert_loop to24 to16 files_32bit f in
          {| final_fs := f'; found := length wav_files;
             found_32bit := length files_32bit; trace := (evs ++ tr)%list |}
      end
  end.

End Down.

End WavDown.

(** ** [caf_to_wav32.py] *)

Module CafCli.

(** [caf.parent / "32bit_wav" / (caf.stem + ".wav")] *)
Definition out_path (caf : path) : path :=
  join (join (dirname caf) ["32bit_wav"]) [stem (basename caf) ++ ".wav"].

(** The command line of [convert_caf_to_wav]. *)
Definition ffmpeg_cmd (input_path output_path : path) : list arg :=
  [AStr "ffmpeg"; AStr "-y"; AStr "-i"; APath input_path;
   AStr "-c:a"; AStr "pcm_f32le"; APath output_path].

End CafCli.

(** ** Button handlers and labels of the two GUIs *)

Module Label.

(** [display_path = directory if len(directory) < limit else "..." +
    directory[-keep:]], in [browse_directory] (60, 57) and
    [browse_output_directory] (50, 47); a path is a string of ASCII
    characters here, so [len] is [String.length]. *)
Definition display_path (limit keep : nat) (directory : string) : string :=
  if (String.length directory <? limit)%nat then directory
  else "..." ++ substring (String.length directory - keep) keep directory.

Definition browse_directory_label : string -> string := display_path 60 57.
Definition browse_output_directory_label : string -> string := display_path 50 47.

End Label.

(** [CAFtoWAVConverter.start_conversion] and the [finally] clause of
    [conversion_thread]: the flag [conversion_running] and the number of
    conversion threads alive. *)
Module CafButton.

Record state := { conversion_running : bool; threads : nat }.

Definition initial : state := {| conversion_running := false; threads := 0 |}.

(** [dir_selected] is [self.selected_directory] being set. *)
Definition start_conversion (dir_selected : bool) (s : state) : state :=
  if negb dir_selected then s
  else if conversion_running s then
    {| conversion_running := false; threads := threads s |}
  else {| conversion_running := true; threads := S (threads s) |}.

(** A conversion thread ends: [finally: self.conversion_running = False]. *)
Definition thread_exit (s : state) : state :=
  match threads s with
  | 0 => s
  | S n => {| conversion_running := false; threads := n |}
  end.

Inductive input := Press (dir_selected : bool) | ThreadExit.

Definition step (s : state) (i : input) : state :=
  match i with
  | Press d => start_conversion d s
  | ThreadExit => thread_exit s
  end.

Definition run (s : state) (inputs : list input) : state := fold_left step inputs s.

End CafButton.

(** [WavConverterGUI.validate_inputs], [start_conversion] and the [finally]
    clause of [process_files]. *)
Module WavButton.

Definition validate_inputs (folder : string) (folder_exists : bool)
    (to24 to16 : bool) : bool :=
  if String.eqb folder EmptyString then false
  else if negb folder_exists then false
  else if negb to24 && negb to16 then false
  else true.

Record state := { is_processing : bool; threads : nat }.

Definition initial : state := {| is_processing := false; threads := 0 |}.

(** The new state, and the targets of the thread started, if any. *)
Definition start_conversion (folder : string) (folder_exists to24 to16 : bool)
    (s : state) : state * option (bool * bool) :=
  if is_processing s then (s, None)
  else if negb (validate_inputs folder folder_exists to24 to16) then (s, None)
  else ({| is_processing := true; threads := S (threads s) |}, Some (to24, to16)).

Definition thread_exit (s : state) : state :=
  match threads s with
  | 0 => s
  | S n => {| is_processing := false; threads := n |}
  end.

Inductive input :=
| Press (folder : string) (folder_exists to24 to16 : bool)
| ThreadExit.

Definition step (s : state) (i : input) : state * option (bool * bool) :=
  match i with
  | Press fo ex a b => start_conversion fo ex a b s
  | ThreadExit => (thread_exit s, None)
  end.

(** The final state and the targets of every thread started, in order. *)
Fixpoint run (s : state) (inputs : list input) : state * list (bool * bool) :=
  match inputs with
  | [] => (s, [])
  | i :: rest =>
      let '(s1, st) := step s i in
      let '(s2, sts) := run s1 rest in
      (s2, match st with Some t => t :: sts | None => sts end)
  end.

End WavButton.

(** [main] and [convert_caf_to_wav] of [caf_to_wav32.py]. *)
Module CafCliMain.

(** [root.rglob("*.caf")] on a case-sensitive (POSIX) filesystem. *)
Definition find_caf_files (walk : list path) : list path :=
  filter (fun p => Py.endswith (basename p) ".caf") walk.

(** How [main] ends: the folder is missing, the loop finishes, or an
    exception that [convert_caf_to_wav] does not catch ends the program.
    [results] lists the files done, with the returned boolean. *)
Inductive outcome :=
| NoFolder
| Finished (f : fs) (results : list (path * bool))
| Aborted (f : fs) (results : list (path * bool)) (msg : string).

Section Cli.

Variable run_ffmpeg : fs -> list arg -> proc_result.
(** [output_path.parent.mkdir(parents=True, exist_ok=True)] *)
Variable mkdir : fs -> path -> fs + string.

(** [inl (fs, ok)] when the function returns, [inr (fs, msg)] when an
    exception escapes it: only [CalledProcessError] (a non-zero exit under
    [check=True]) is caught. *)
Definition convert_caf_to_wav (f : fs) (input_path output_path : path)
    : (fs * bool) + (fs * string) :=
  match mkdir f (dirname output_path) with
  | inr msg => inr (f, msg)
  | inl f1 =>
      match run_ffmpeg f1 (CafCli.ffmpeg_cmd input_path output_path) with
      | Raised msg => inr (f1, msg)
      | Completed f2 rc _ => inl (f2, Z.eqb rc 0)
      end
  end.

Fixpoint main_loop (f : fs) (files : list path) (acc : list (path * bool))
    : outcome :=
  match files with
  | [] => Finished f (rev acc)
  | caf :: rest =>
      match convert_caf_to_wav f caf (CafCli.out_path caf) with
      | inr (f1, msg) => Aborted f1 (rev acc) msg
      | inl (f1, ok) => main_loop f1 rest ((caf, ok) :: acc)
      end
  end.

Definition main (f : fs) (root_exists : bool) (walk : list path) : outcome :=
  if negb root_exists then NoFolder
  else main_loop f (find_caf_files walk) [].

(** [cli_steps f rs f'] : the loop, started on [f], returns normally for
    each file of [rs] in turn ([mkdir], then ffmpeg exiting with [rc], the
    result being [rc == 0]) and ends on [f']. *)
Inductive cli_steps : fs -> list (path * bool) -> fs -> Prop :=
| cli_nil f : cli_steps f [] f
| cli_cons f f1 f2 f3 caf rc err rs :
    mkdir f (dirname (CafCli.out_path caf)) = inl f1 ->
    run_ffmpeg f1 (CafCli.ffmpeg_cmd caf (CafCli.out_path caf)) = Completed f2 rc err ->
    cli_steps f2 rs f3 ->
    cli_steps f ((caf, Z.eqb rc 0) :: rs) f3.

End Cli.

End CafCliMain.

(** ** Observations on states and traces *)

Module Observe.

(** The WAV GUI's button invariant: at most one processing thread, and
    [is_processing] set exactly while it runs. *)
Definition wav_inv (s : WavButton.state) : Prop :=
  WavButton.threads s <= 1 /\
  (WavButton.is_processing s = true <-> WavButton.threads s = 1).

(** The number of jobs counted as converted. *)
Definition conv (c : nat * nat * nat) : nat := let '(a, _, _) := c in a.

(** The index and source of each job outcome of a CAF run, in order. *)
Definition outcomes_of (tr : list event) : list (nat * path) :=
  flat_map (fun e => match e with EvOutcome i src _ => [(i, src)] | _ => [] end) tr.

(** Source, destination and target depth of each downconversion job. *)
Definition job_keys (tr : list event) : list (path * path * Z) :=
  flat_map (fun e => match e with EvJob s d b _ => [(s, d, b)] | _ => [] end) tr.

(** The jobs [process_files] runs for one 32-bit file. *)
Definition down_plan (to24 to16 : bool) (w : path) : list (path * path * Z) :=
  ((if to24 then [(w, WavDown.down_target w "24bit", 24%Z)] else [])
   ++ (if to16 then [(w, WavDown.down_target w "16bit", 16%Z)] else []))%list.

(** The subtype [convert_file] writes for a target depth of 24 or 16. *)
Definition subtype_for (bits : Z) : string := if Z.eqb bits 24 then "PCM_24" else "PCM_16".

(** Path and subtype of each [sf.write] call. *)
Definition writes_of (tr : list event) : list (path * string) :=
  flat_map (fun e => match e with EvWrite p st => [(p, st)] | _ => [] end) tr.

End Observe.

(** ** Sample environments *)

Module Samples.

Definition gui_cfg (out : option path) (ow : bool) : CafGui.config :=
  {| CafGui.selected_directory := ["music"]; CafGui.output_directory := out;
     CafGui.bit_depth := "24"; CafGui.trim_silence := true;
     CafGui.overwrite := ow; CafGui.ffmpeg_available := true |}.

(** The last argument of a command line, ffmpeg's output file. *)
Definition out_arg (cmd : list arg) : path :=
  match last cmd (AStr EmptyString) with APath p => p | AStr _ => [] end.

Definition has_flag (s : string) (cmd : list arg) : bool :=
  existsb (fun a => match a with AStr t => String.eqb t s | APath _ => false end)
    cmd.

Definition nl : string := String "010"%char EmptyString.

(** An ffmpeg that honours [-n] and otherwise writes its output file. *)
Definition ffmpeg_ok (f : fs) (cmd : list arg) : proc_result :=
  let out := out_arg cmd in
  if has_flag "-n" cmd && fs_exists f out then
    Completed f 1 ("File 'out.wav' already exists. Exiting." ++ nl)
  else
    Completed ((out, "pcm") :: f) 0
      ("  Duration: 00:00:01.00, start: 0.000000" ++ nl).

(** An ffmpeg that cannot decode an input whose name contains the words
    "already exists". *)
Definition ffmpeg_bad_input (f : fs) (cmd : list arg) : proc_result :=
  Completed f 1
    ("music/already exists.caf: Invalid data found when processing input" ++ nl).

(** An ffmpeg that cannot decode any input. *)
Definition ffmpeg_broken (f : fs) (cmd : list arg) : proc_result :=
  Completed f 1 ("Invalid data found when processing input" ++ nl ++
                 "Conversion failed!" ++ nl).

Definition mkdirs_ok (f : fs) (d : path) : fs + string := inl f.

(** soundfile on a folder with a 32-bit float and a 16-bit file. *)
Definition sf_info_sample (f : fs) (p : path) : option string :=
  if path_eqb p ["music"; "a.wav"] then Some "FLOAT"
  else if path_eqb p ["music"; "b.wav"] then Some "PCM_16"
  else if path_eqb p ["music"; "c.wav"] then Some "PCM_32"
  else None.

Definition sf_read_sample (f : fs) (p : path) : option string := Some "samples".

Definition sf_write_sample (f : fs) (p : path) (data st : string) : option fs :=
  Some ((p, data ++ ":" ++ st) :: f).

End Samples.

(** * Proofs *)

Module CafGuiProofs.
Import CafGui.

Definition sum3 (c : nat * nat * nat) : nat :=
  let '(a, b, d) := c in a + b + d.

Lemma sum3_bump : forall st c, sum3 (bump st c) = S (sum3 c).
Proof.
  intros st [[a b] d]; unfold bump.
  destruct (String.eqb st "success"); [|destruct (Py.startswith st "skipped")];
    simpl; lia.
Qed.

Section Gui.

Variable run_ffmpeg : fs -> list arg -> proc_result.
Variable makedirs : fs -> path -> fs + string.
Variable cfg : config.

Lemma convert_with_ffmpeg_events : forall f caf wav bd trim,
  snd (convert_with_ffmpeg run_ffmpeg cfg f caf wav bd trim)
  = [EvInvoke (ffmpeg_cmd cfg caf wav bd trim)].
Proof.
  intros; unfold convert_with_ffmpeg.
  destruct (run_ffmpeg f _) as [msg | f' rc err]; [reflexivity|].
  destruct (Z.eqb rc 0); [reflexivity|].
  destruct (Py.contains "already exists" err); reflexivity.
Qed.

(** A single job starts ffmpeg at most once, and only on its own
    destination. *)
Lemma convert_caf_to_wav_events : forall f caf bd trim,
  snd (convert_caf_to_wav run_ffmpeg makedirs cfg f caf bd trim) = [] \/
  snd (convert_caf_to_wav run_ffmpeg makedirs cfg f caf bd trim)
  = [EvInvoke (ffmpeg_cmd cfg caf (wav_target cfg caf) bd trim)].
Proof.
  intros; unfold convert_caf_to_wav, convert_after_mkdirs.
  destruct (output_directory cfg) as [[|d out]|].
  - destruct (_ && _); [left; reflexivity|].
    destruct (negb _); [left; reflexivity|].
    right; apply convert_with_ffmpeg_events.
  - destruct (makedirs _ _) as [f1|msg]; [|left; reflexivity].
    destruct (_ && _); [left; reflexivity|].
    destruct (negb _); [left; reflexivity|].
    right; apply convert_with_ffmpeg_events.
  - destruct (_ && _); [left; reflexivity|].
    destruct (negb _); [left; reflexivity|].
    right; apply convert_with_ffmpeg_events.
Qed.

Lemma job_events_quiet : forall f caf bd trim,
  let evs := snd (convert_caf_to_wav run_ffmpeg makedirs cfg f caf bd trim) in
  filter is_outcome evs = [] /\ existsb is_cancelled evs = false /\
  filter is_poll evs = [].
Proof.
  intros; subst evs.
  destruct (convert_caf_to_wav_events f caf bd trim) as [-> | ->];
    repeat split; reflexivity.
Qed.

Lemma convert_loop_counts : forall running bd trim files i f c f' c' tr,
  convert_loop run_ffmpeg makedirs cfg running bd trim i files f c = (f', c', tr) ->
  sum3 c' = sum3 c + length (filter is_outcome tr) /\
  length (filter is_outcome tr) <= length files /\
  (length (filter is_outcome tr) = length files <-> existsb is_cancelled tr = false).
Proof.
  intros running bd trim files; induction files as [|caf rest IH];
    intros i f c f' c' tr H; cbn [convert_loop] in H.
  - inversion H; subst; simpl; repeat split; lia.
  - destruct (running i); cbn [negb] in H.
    + destruct (convert_caf_to_wav run_ffmpeg makedirs cfg f caf bd trim)
        as [[f1 r] evs] eqn:Hc.
      destruct (convert_loop run_ffmpeg makedirs cfg running bd trim (S i) rest f1
                  (bump (status_of r) c)) as [[f2 c2] tr'] eqn:Hl.
      inversion H; subst; clear H.
      destruct (IH _ _ _ _ _ _ Hl) as [Hs [Hle Hiff]].
      pose proof (job_events_quiet f caf bd trim) as Hq; rewrite Hc in Hq;
        cbn [snd] in Hq; destruct Hq as [Ho [Hx _]].
      rewrite sum3_bump in Hs.
      cbn [filter is_outcome existsb is_cancelled orb].
      rewrite filter_app, existsb_app, Ho, Hx; cbn [app filter is_outcome
        existsb is_cancelled orb length].
      repeat split; try lia.
      * intro E; apply Hiff; simpl in E; lia.
      * intro E; apply Hiff in E; simpl; lia.
    + inversion H; subst; simpl; repeat split; try lia; discriminate.
Qed.

(** C1: the counters of every finished CAF run add up to the number of jobs
    attempted; at most the planned jobs are attempted, and all of them are
    exactly when the loop was not cancelled. *)
Theorem conversion_thread_counters : forall f walk running,
  let r := conversion_thread run_ffmpeg makedirs cfg f walk running in
  converted r + skipped r + errors r = attempted r /\
  attempted r <= planned r /\
  (attempted r = planned r <-> cancelled r = false).
Proof.
  intros f walk running r; subst r; unfold conversion_thread.
  destruct (negb (ffmpeg_available cfg)).
  { unfold attempted, cancelled; simpl; repeat split; lia. }
  destruct (find_caf_files walk) as [|c0 cs] eqn:Hfiles.
  { unfold attempted, cancelled; simpl; repeat split; lia. }
  rewrite <- Hfiles.
  destruct (convert_loop run_ffmpeg makedirs cfg running (bit_depth cfg)
              (trim_silence cfg) 0 (find_caf_files walk) f (0, 0, 0))
    as [[f' [[cv sk] er]] tr] eqn:Hl.
  destruct (convert_loop_counts _ _ _ _ _ _ _ _ _ _ Hl) as [Hs [Hle Hiff]].
  unfold attempted, cancelled; cbn [converted skipped errors planned trace].
  simpl in Hs; repeat split; [lia | lia | apply Hiff | apply Hiff].
Qed.

(** The shape of a CAF run's trace: the flag is read exactly once before each
    job, a job's own events are ffmpeg invocations only, and after a read
    that stops the loop nothing else happens. *)
Inductive polled : nat -> list event -> Prop :=
| polled_done i : polled i []
| polled_cancel i : polled i [EvPoll i; EvCancelled]
| polled_job i evs src st tr :
    Forall (fun e => is_invoke e = true) evs ->
    polled (S i) tr ->
    polled i (EvPoll i :: evs ++ EvOutcome i src st :: tr).

Lemma job_events_invoke : forall f caf bd trim,
  Forall (fun e => is_invoke e = true)
    (snd (convert_caf_to_wav run_ffmpeg makedirs cfg f caf bd trim)).
Proof.
  intros; destruct (convert_caf_to_wav_events f caf bd trim) as [-> | ->];
    repeat constructor.
Qed.

Lemma convert_loop_polled : forall running bd trim files i f c f' c' tr,
  convert_loop run_ffmpeg makedirs cfg running bd trim i files f c = (f', c', tr) ->
  polled i tr.
Proof.
  intros running bd trim files; induction files as [|caf rest IH];
    intros i f c f' c' tr H; cbn [convert_loop] in H.
  - inversion H; constructor.
  - destruct (running i); cbn [negb] in H.
    + destruct (convert_caf_to_wav run_ffmpeg makedirs cfg f caf bd trim)
        as [[f1 r] evs] eqn:Hc.
      destruct (convert_loop run_ffmpeg makedirs cfg running bd trim (S i) rest f1
                  (bump (status_of r) c)) as [[f2 c2] tr'] eqn:Hl.
      inversion H; subst; clear H.
      constructor; [|eapply IH; exact Hl].
      pose proof (job_events_invoke f caf bd trim) as Hq; rewrite Hc in Hq;
        exact Hq.
    + inversion H; constructor.
Qed.

Lemma convert_loop_stops : forall running bd trim files i k f c f' c' tr,
  i <= k -> k < i + length files ->
  (forall j, i <= j < k -> running j = true) -> running k = false ->
  convert_loop run_ffmpeg makedirs cfg running bd trim i files f c = (f', c', tr) ->
  length (filter is_outcome tr) = k - i /\ existsb is_cancelled tr = true /\
  exists pre, tr = (pre ++ [EvPoll k; EvCancelled])%list.
Proof.
  intros running bd trim files; induction files as [|caf rest IH];
    intros i k f c f' c' tr Hik Hk Hrun Hstop H; cbn [convert_loop] in H.
  - simpl in Hk; lia.
  - destruct (Nat.eq_dec i k) as [<- | Hne].
    + rewrite Hstop in H; cbn [negb] in H; inversion H; subst.
      split; [simpl; lia|]; split; [reflexivity|]; exists []; reflexivity.
    + rewrite (Hrun i) in H by lia; cbn [negb] in H.
      destruct (convert_caf_to_wav run_ffmpeg makedirs cfg f caf bd trim)
        as [[f1 r] evs] eqn:Hc.
      destruct (convert_loop run_ffmpeg makedirs cfg running bd trim (S i) rest f1
                  (bump (status_of r) c)) as [[f2 c2] tr'] eqn:Hl.
      inversion H; subst; clear H.
      destruct (IH (S i) k _ _ _ _ _ ltac:(lia) ltac:(simpl in Hk; lia)
                  ltac:(intros; apply Hrun; lia) Hstop Hl) as [Ho [Hx [pre Hpre]]].
      pose proof (job_events_quiet f caf bd trim) as Hq; rewrite Hc in Hq;
        cbn [snd] in Hq; destruct Hq as [Ho' [Hx' _]].
      cbn [filter is_outcome existsb is_cancelled orb].
      rewrite filter_app, existsb_app, Ho', Hx';
        cbn [app filter is_outcome existsb is_cancelled orb length].
      split; [lia|]; split; [exact Hx|].
      exists (EvPoll i :: evs ++ EvOutcome i caf (status_of r) :: pre)%list.
      rewrite Hpre; simpl; rewrite <- app_assoc; reflexivity.
Qed.

End Gui.
End CafGuiProofs.

Module WavDownProofs.
Import WavDown.

Section Down.

Variable sf_info : fs -> path -> option string.
Variable sf_read : fs -> path -> option string.
Variable sf_write : fs -> path -> string -> string -> option fs.
Variable makedirs : fs -> path -> fs + string.

(** [convert_file] reads its input once and, at most, writes its output
    once. *)
Lemma convert_file_events : forall f i o t,
  snd (convert_file sf_read sf_write makedirs f i o t) = [EvRead i] \/
  exists st, snd (convert_file sf_read sf_write makedirs f i o t)
             = [EvRead i; EvWrite o st].
Proof.
  intros; unfold convert_file.
  destruct (sf_read f i) as [data|]; [|left; reflexivity].
  destruct (Z.eqb t 24); [|destruct (Z.eqb t 16)];
    try (left; reflexivity);
    (destruct (makedirs f (dirname o)) as [f1|]; [|left; reflexivity]);
    (destruct (sf_write f1 o data _); right; eexists; reflexivity).
Qed.

Lemma job_events : forall f w sub bits,
  filter is_job (snd (job sf_read sf_write makedirs f w sub bits))
  = [EvJob w (down_target w sub) bits
       (fst (fst (convert_file sf_read sf_write makedirs f w
                    (down_target w sub) bits)))] /\
  filter is_poll (snd (job sf_read sf_write makedirs f w sub bits)) = [] /\
  filter is_classify_error (snd (job sf_read sf_write makedirs f w sub bits)) = [].
Proof.
  intros; unfold job.
  pose proof (convert_file_events f w (down_target w sub) bits) as He.
  destruct (convert_file sf_read sf_write makedirs f w (down_target w sub) bits)
    as [[ok f1] evs]; cbn [snd fst] in *.
  destruct He as [-> | [st ->]]; repeat split; reflexivity.
Qed.

Lemma get_bit_depth_events : forall f p,
  filter is_poll (snd (get_bit_depth sf_info f p)) = [] /\
  filter is_job (snd (get_bit_depth sf_info f p)) = [].
Proof.
  intros; unfold get_bit_depth; destruct (sf_info f p); split; reflexivity.
Qed.

Lemma filter_32bit_events : forall f files,
  filter is_poll (snd (filter_32bit sf_info f files)) = [] /\
  filter is_job (snd (filter_32bit sf_info f files)) = [].
Proof.
  intros f files; induction files as [|w rest IH]; [split; reflexivity|].
  cbn [filter_32bit].
  pose proof (get_bit_depth_events f w) as [Hp Hj].
  destruct (get_bit_depth sf_info f w) as [b evs].
  destruct (filter_32bit sf_info f rest) as [keep evs'].
  cbn [snd] in *; destruct IH as [IHp IHj].
  rewrite !filter_app, Hp, Hj, IHp, IHj; split; reflexivity.
Qed.

Lemma convert_loop_events : forall to24 to16 files f,
  filter is_poll (snd (convert_loop sf_read sf_write makedirs to24 to16 files f))
  = [] /\
  length (filter is_job
    (snd (convert_loop sf_read sf_write makedirs to24 to16 files f)))
  = length files * (Nat.b2n to24 + Nat.b2n to16).
Proof.
  intros to24 to16 files; induction files as [|w rest IH]; intros f;
    [split; reflexivity|].
  cbn [convert_loop].
  destruct (if to24 then job sf_read sf_write makedirs f w "24bit" 24 else (f, []))
    as [f1 e1] eqn:H1.
  destruct (if to16 then job sf_read sf_write makedirs f1 w "16bit" 16 else (f1, []))
    as [f2 e2] eqn:H2.
  destruct (convert_loop sf_read sf_write makedirs to24 to16 rest f2)
    as [f3 e3] eqn:H3.
  destruct (IH f2) as [IHp IHj]; rewrite H3 in IHp, IHj; cbn [snd] in *.
  assert (E1 : filter is_poll e1 = [] /\
               length (filter is_job e1) = Nat.b2n to24).
  { destruct to24.
    - destruct (job_events f w "24bit" 24) as [Hj [Hp _]]; rewrite H1 in Hj, Hp;
        cbn [snd] in *; rewrite Hj, Hp; split; reflexivity.
    - inversion H1; split; reflexivity. }
  assert (E2 : filter is_poll e2 = [] /\
               length (filter is_job e2) = Nat.b2n to16).
  { destruct to16.
    - destruct (job_events f1 w "16bit" 16) as [Hj [Hp _]]; rewrite H2 in Hj, Hp;
        cbn [snd] in *; rewrite Hj, Hp; split; reflexivity.
    - inversion H2; split; reflexivity. }
  destruct E1 as [P1 J1]; destruct E2 as [P2 J2].
  rewrite !filter_app, !length_app, P1, P2, IHp, J1, J2, IHj.
  split; [reflexivity | simpl; lia].
Qed.

(** The downconversion run reads no cancellation flag and performs one job
    per 32-bit file and requested target. *)
Lemma process_files_jobs : forall f folder walk listing sub to24 to16,
  let r := process_files sf_info sf_read sf_write makedirs f folder walk listing
             sub to24 to16 in
  filter is_poll (trace r) = [] /\
  length (filter is_job (trace r)) = found_32bit r * (Nat.b2n to24 + Nat.b2n to16).
Proof.
  intros; subst r; unfold process_files.
  destruct (find_wav_files folder walk listing sub) as [|w0 ws] eqn:Hw;
    [split; reflexivity|].
  pose proof (filter_32bit_events f (w0 :: ws)) as [Hp Hj].
  destruct (filter_32bit sf_info f (w0 :: ws)) as [files evs]; cbn [snd] in *.
  destruct files as [|x xs]; [cbn [trace found_32bit]; rewrite Hp, Hj; split; reflexivity|].
  pose proof (convert_loop_events to24 to16 (x :: xs) f) as [Cp Cj].
  destruct (convert_loop sf_read sf_write makedirs to24 to16 (x :: xs) f) as [f' tr].
  cbn [snd trace found_32bit] in *.
  rewrite !filter_app, length_app, Hp, Hj, Cp, Cj; split; reflexivity.
Qed.

End Down.
End WavDownProofs.

Module CafGuiEnvProofs.
Import CafGui CafGuiProofs.

Lemma path_eqb_refl : forall p, path_eqb p p = true.
Proof. induction p as [|a p IH]; simpl; [reflexivity|]; rewrite String.eqb_refl; exact IH. Qed.

Lemma path_eqb_eq : forall p q, path_eqb p q = true -> p = q.
Proof.
  induction p as [|a p IH]; intros [|b q] H; simpl in H; try discriminate;
    [reflexivity|].
  apply andb_prop in H as [Ha Hp]; apply String.eqb_eq in Ha; subst;
    f_equal; apply IH, Hp.
Qed.

Lemma fs_exists_lookup : forall f p, fs_exists f p = true <-> fs_lookup f p <> None.
Proof.
  induction f as [|[q d] f IH]; intros p; simpl; [split; congruence|].
  destruct (path_eqb q p) eqn:E; simpl; [split; congruence|apply IH].
Qed.

Section Env.

Variable run_ffmpeg : fs -> list arg -> proc_result.
Variable makedirs : fs -> path -> fs + string.
Variable cfg : config.

(** [os.makedirs] creates directories only: every file keeps its contents. *)
Hypothesis makedirs_files : forall f d f1 p,
  makedirs f d = inl f1 -> fs_lookup f1 p = fs_lookup f p.
(** With [exist_ok=True], the parent directory of an existing file is
    accepted. *)
Hypothesis makedirs_existing : forall f p,
  fs_exists f p = true -> exists f1, makedirs f (dirname p) = inl f1.
(** ffmpeg deletes no file. *)
Hypothesis ffmpeg_keeps : forall f cmd f' rc err p,
  run_ffmpeg f cmd = Completed f' rc err ->
  fs_exists f p = true -> fs_exists f' p = true.
(** When ffmpeg exits with 0, its output file exists. *)
Hypothesis ffmpeg_creates : forall f caf wav bd trim f' err,
  run_ffmpeg f (ffmpeg_cmd cfg caf wav bd trim) = Completed f' 0%Z err ->
  fs_exists f' wav = true.

Lemma makedirs_exists : forall f d f1 p,
  makedirs f d = inl f1 -> fs_exists f1 p = fs_exists f p.
Proof.
  intros f d f1 p H.
  destruct (fs_exists f p) eqn:E.
  - apply fs_exists_lookup; rewrite (makedirs_files _ _ _ _ H);
      apply fs_exists_lookup; exact E.
  - destruct (fs_exists f1 p) eqn:E1; [|reflexivity].
    apply fs_exists_lookup in E1; rewrite (makedirs_files _ _ _ _ H) in E1;
      apply fs_exists_lookup in E1; congruence.
Qed.

(** An existing destination with overwrite disabled: the job is skipped,
    ffmpeg is not started and no file changes. *)
Lemma convert_caf_to_wav_existing : forall f caf bd trim,
  overwrite cfg = false ->
  fs_exists f (wav_target cfg caf) = true ->
  let '(f', r, evs) := convert_caf_to_wav run_ffmpeg makedirs cfg f caf bd trim in
  status_of r = "skipped (already exists)" /\ evs = [] /\
  forall p, fs_lookup f' p = fs_lookup f p.
Proof.
  intros f caf bd trim Hov Hex.
  unfold convert_caf_to_wav, convert_after_mkdirs.
  rewrite Hov.
  destruct (output_directory cfg) as [[|d out]|] eqn:Ho.
  - rewrite Hex; simpl; auto.
  - destruct (makedirs_existing f (wav_target cfg caf) Hex) as [f1 Hm].
    rewrite Hm, (makedirs_exists _ _ _ _ Hm), Hex; simpl.
    split; [reflexivity|]; split; [reflexivity|].
    intro p; apply (makedirs_files _ _ _ _ Hm).
  - rewrite Hex; simpl; auto.
Qed.

Lemma convert_with_ffmpeg_keeps : forall f caf wav bd trim p,
  fs_exists f p = true ->
  fs_exists (fst (fst (convert_with_ffmpeg run_ffmpeg cfg f caf wav bd trim))) p
  = true.
Proof.
  intros; unfold convert_with_ffmpeg.
  destruct (run_ffmpeg f _) as [msg | f' rc err] eqn:Hr; [assumption|].
  assert (fs_exists f' p = true) by (eapply ffmpeg_keeps; eauto).
  destruct (Z.eqb rc 0); [assumption|].
  destruct (Py.contains _ _); assumption.
Qed.

Lemma convert_caf_to_wav_keeps : forall f caf bd trim p,
  fs_exists f p = true ->
  fs_exists (fst (fst (convert_caf_to_wav run_ffmpeg makedirs cfg f caf bd trim)))
    p = true.
Proof.
  intros f caf bd trim p Hp.
  unfold convert_caf_to_wav, convert_after_mkdirs.
  destruct (output_directory cfg) as [[|d out]|].
  - destruct (_ && _); [assumption|]; destruct (negb _); [assumption|].
    apply convert_with_ffmpeg_keeps; assumption.
  - destruct (makedirs f _) as [f1|msg] eqn:Hm; [|assumption].
    assert (fs_exists f1 p = true) by (rewrite (makedirs_exists _ _ _ _ Hm); exact Hp).
    destruct (_ && _); [assumption|]; destruct (negb _); [assumption|].
    apply convert_with_ffmpeg_keeps; assumption.
  - destruct (_ && _); [assumption|]; destruct (negb _); [assumption|].
    apply convert_with_ffmpeg_keeps; assumption.
Qed.

Lemma convert_with_ffmpeg_success : forall f caf wav bd trim,
  status_of (snd (fst (convert_with_ffmpeg run_ffmpeg cfg f caf wav bd trim)))
    = "success" ->
  fs_exists (fst (fst (convert_with_ffmpeg run_ffmpeg cfg f caf wav bd trim))) wav
  = true.
Proof.
  intros f caf wav bd trim; unfold convert_with_ffmpeg.
  destruct (run_ffmpeg f _) as [msg | f' rc err] eqn:Hr; cbn; [discriminate|].
  destruct (Z.eqb rc 0) eqn:Hz.
  - intros _; apply Z.eqb_eq in Hz; subst; eapply ffmpeg_creates; exact Hr.
  - destruct (Py.contains _ _); cbn; discriminate.
Qed.

Lemma convert_caf_to_wav_success : forall f caf bd trim,
  status_of (snd (fst (convert_caf_to_wav run_ffmpeg makedirs cfg f caf bd trim)))
    = "success" ->
  fs_exists (fst (fst (convert_caf_to_wav run_ffmpeg makedirs cfg f caf bd trim)))
    (wav_target cfg caf) = true.
Proof.
  intros f caf bd trim.
  unfold convert_caf_to_wav, convert_after_mkdirs.
  destruct (output_directory cfg) as [[|d out]|].
  - destruct (_ && _); [cbn; discriminate|]; destruct (negb _); [cbn; discriminate|].
    apply convert_with_ffmpeg_success.
  - destruct (makedirs f _) as [f1|msg]; [|cbn; discriminate].
    destruct (_ && _); [cbn; discriminate|]; destruct (negb _); [cbn; discriminate|].
    apply convert_with_ffmpeg_success.
  - destruct (_ && _); [cbn; discriminate|]; destruct (negb _); [cbn; discriminate|].
    apply convert_with_ffmpeg_success.
Qed.

Lemma no_outcome_in_job : forall f caf bd trim j src st,
  ~ In (EvOutcome j src st)
      (snd (convert_caf_to_wav run_ffmpeg makedirs cfg f caf bd trim)).
Proof.
  intros f caf bd trim j src st H.
  destruct (job_events_quiet run_ffmpeg makedirs cfg f caf bd trim) as [Ho _].
  assert (Hin : In (EvOutcome j src st)
             (filter is_outcome
                (snd (convert_caf_to_wav run_ffmpeg makedirs cfg f caf bd trim))))
    by (apply filter_In; split; [exact H | reflexivity]).
  rewrite Ho in Hin; destruct Hin.
Qed.

(** Destructs the first job of a running loop. *)
Ltac loop_step H Hc Hl :=
  match type of H with
  | convert_loop _ _ _ ?running ?bd ?trim ?i (?caf :: ?rest) ?f ?c = _ =>
      cbn [convert_loop] in H;
      destruct (running i); cbn [negb] in H;
      [ destruct (convert_caf_to_wav run_ffmpeg makedirs cfg f caf bd trim)
          as [[?f1 ?r] ?evs] eqn:Hc;
        destruct (convert_loop run_ffmpeg makedirs cfg running bd trim (S i) rest _
                    (bump (status_of _) c)) as [[?f2 ?c2] ?tr'] eqn:Hl;
        inversion H; subst; clear H
      | inversion H; subst; clear H ]
  end.

Lemma convert_loop_keeps : forall running bd trim files i f c f' c' tr p,
  convert_loop run_ffmpeg makedirs cfg running bd trim i files f c = (f', c', tr) ->
  fs_exists f p = true -> fs_exists f' p = true.
Proof.
  intros running bd trim files; induction files as [|caf rest IH];
    intros i f c f' c' tr p H Hp.
  - inversion H; subst; exact Hp.
  - loop_step H Hc Hl; [|exact Hp].
    eapply IH; [exact Hl|].
    pose proof (convert_caf_to_wav_keeps f caf bd trim p Hp) as K;
      rewrite Hc in K; exact K.
Qed.

Lemma convert_loop_success : forall running bd trim files i f c f' c' tr j src,
  convert_loop run_ffmpeg makedirs cfg running bd trim i files f c = (f', c', tr) ->
  In (EvOutcome j src "success") tr ->
  fs_exists f' (wav_target cfg src) = true.
Proof.
  intros running bd trim files; induction files as [|caf rest IH];
    intros i f c f' c' tr j src H Hin.
  - inversion H; subst; destruct Hin.
  - loop_step H Hc Hl.
    + destruct Hin as [E | Hin]; [discriminate|].
      apply in_app_or in Hin as [Hin | [E | Hin]].
      * pose proof (no_outcome_in_job f caf bd trim j src "success") as N;
          rewrite Hc in N; contradiction.
      * injection E as _ Hs Hst; subst src.
        pose proof (convert_caf_to_wav_success f caf bd trim) as S;
          rewrite Hc in S; cbn [fst snd] in S.
        eapply convert_loop_keeps; [exact Hl|]; apply S; exact Hst.
      * eapply IH; eassumption.
    + destruct Hin as [E | [E | []]]; discriminate.
Qed.

Lemma convert_loop_skips : forall running bd trim files i f c f' c' tr j src st,
  overwrite cfg = false ->
  fs_exists f (wav_target cfg src) = true ->
  convert_loop run_ffmpeg makedirs cfg running bd trim i files f c = (f', c', tr) ->
  In (EvOutcome j src st) tr ->
  st = "skipped (already exists)".
Proof.
  intros running bd trim files; induction files as [|caf rest IH];
    intros i f c f' c' tr j src st Hov Hex H Hin.
  - inversion H; subst; destruct Hin.
  - loop_step H Hc Hl.
    + destruct Hin as [E | Hin]; [discriminate|].
      apply in_app_or in Hin as [Hin | [E | Hin]].
      * pose proof (no_outcome_in_job f caf bd trim j src st) as N;
          rewrite Hc in N; contradiction.
      * injection E as _ Hs Hst; subst src st.
        pose proof (convert_caf_to_wav_existing f caf bd trim Hov Hex) as S;
          rewrite Hc in S; destruct S as [S _]; exact S.
      * eapply IH; [exact Hov| |exact Hl|exact Hin].
        pose proof (convert_caf_to_wav_keeps f caf bd trim _ Hex) as K;
          rewrite Hc in K; exact K.
    + destruct Hin as [E | [E | []]]; discriminate.
Qed.

Lemma conversion_thread_loop : forall f walk running,
  trace (conversion_thread run_ffmpeg makedirs cfg f walk running) = [] \/
  exists c', convert_loop run_ffmpeg makedirs cfg running (bit_depth cfg)
               (trim_silence cfg) 0 (find_caf_files walk) f (0, 0, 0)
             = (final_fs (conversion_thread run_ffmpeg makedirs cfg f walk running),
                c', trace (conversion_thread run_ffmpeg makedirs cfg f walk running)).
Proof.
  intros; unfold conversion_thread.
  destruct (negb (ffmpeg_available cfg)); [left; reflexivity|].
  destruct (find_caf_files walk) as [|c0 cs] eqn:Hfiles; [left; reflexivity|].
  right; rewrite <- Hfiles.
  destruct (convert_loop run_ffmpeg makedirs cfg running (bit_depth cfg)
              (trim_silence cfg) 0 (find_caf_files walk) f (0, 0, 0))
    as [[f' [[cv sk] er]] tr].
  exists (cv, sk, er); reflexivity.
Qed.

Lemma conversion_thread_success : forall f walk running j src,
  In (EvOutcome j src "success")
     (trace (conversion_thread run_ffmpeg makedirs cfg f walk running)) ->
  fs_exists (final_fs (conversion_thread run_ffmpeg makedirs cfg f walk running))
    (wav_target cfg src) = true.
Proof.
  intros f walk running j src Hin.
  destruct (conversion_thread_loop f walk running) as [E | [c' E]];
    [rewrite E in Hin; destruct Hin|].
  eapply convert_loop_success; eassumption.
Qed.

Lemma conversion_thread_skips : forall f walk running j src st,
  overwrite cfg = false ->
  fs_exists f (wav_target cfg src) = true ->
  In (EvOutcome j src st)
     (trace (conversion_thread run_ffmpeg makedirs cfg f walk running)) ->
  st = "skipped (already exists)".
Proof.
  intros f walk running j src st Hov Hex Hin.
  destruct (conversion_thread_loop f walk running) as [E | [c' E]];
    [rewrite E in Hin; destruct Hin|].
  eapply convert_loop_skips; eassumption.
Qed.

Lemma convert_loop_outcome_index : forall running bd trim files i f c f' c' tr j src st,
  convert_loop run_ffmpeg makedirs cfg running bd trim i files f c = (f', c', tr) ->
  In (EvOutcome j src st) tr -> i <= j.
Proof.
  intros running bd trim files; induction files as [|caf rest IH];
    intros i f c f' c' tr j src st H Hin.
  - inversion H; subst; destruct Hin.
  - loop_step H Hc Hl.
    + destruct Hin as [E | Hin]; [discriminate|].
      apply in_app_or in Hin as [Hin | [E | Hin]].
      * pose proof (no_outcome_in_job f caf bd trim j src st) as N;
          rewrite Hc in N; contradiction.
      * injection E as -> _ _; lia.
      * pose proof (IH _ _ _ _ _ _ _ _ _ Hl Hin); lia.
    + destruct Hin as [E | [E | []]]; discriminate.
Qed.

(** Two jobs of one run with the same destination: once the earlier one has
    converted, the later one is skipped. *)
Lemma convert_loop_clash : forall running bd trim files i f c f' c' tr j k p q st,
  overwrite cfg = false ->
  wav_target cfg p = wav_target cfg q ->
  j < k ->
  convert_loop run_ffmpeg makedirs cfg running bd trim i files f c = (f', c', tr) ->
  In (EvOutcome j p "success") tr ->
  In (EvOutcome k q st) tr ->
  st = "skipped (already exists)".
Proof.
  intros running bd trim files; induction files as [|caf rest IH];
    intros i f c f' c' tr j k p q st Hov Hpq Hjk H Hp Hq.
  - inversion H; subst; destruct Hp.
  - loop_step H Hc Hl.
    + destruct Hp as [E | Hp]; [discriminate|].
      destruct Hq as [E | Hq]; [discriminate|].
      apply in_app_or in Hp as [Hp | [E | Hp]].
      * pose proof (no_outcome_in_job f caf bd trim j p "success") as N;
          rewrite Hc in N; contradiction.
      * injection E as Ei Ecaf Hst; subst i caf.
        apply in_app_or in Hq as [Hq | [E | Hq]].
        -- pose proof (no_outcome_in_job f p bd trim k q st) as N;
             rewrite Hc in N; contradiction.
        -- apply (f_equal (fun e => match e with EvOutcome n _ _ => n | _ => 0 end)) in E;
             cbn in E; lia.
        -- pose proof (convert_caf_to_wav_success f p bd trim) as Hsx;
             rewrite Hc in Hsx; cbn [fst snd] in Hsx.
           eapply (convert_loop_skips running bd trim rest (S j) f1); [exact Hov| |exact Hl|exact Hq].
           rewrite <- Hpq; apply Hsx; exact Hst.
      * pose proof (convert_loop_outcome_index _ _ _ _ _ _ _ _ _ _ _ _ _ Hl Hp) as Hj.
        apply in_app_or in Hq as [Hq | [E | Hq]].
        -- pose proof (no_outcome_in_job f caf bd trim k q st) as N;
             rewrite Hc in N; contradiction.
        -- apply (f_equal (fun e => match e with EvOutcome n _ _ => n | _ => 0 end)) in E;
             cbn in E; lia.
        -- exact (IH _ _ _ _ _ _ j k p q st Hov Hpq Hjk Hl Hp Hq).
    + destruct Hp as [E | [E | []]]; discriminate.
Qed.

Lemma conversion_thread_clash : forall f walk running j k p q st,
  overwrite cfg = false ->
  wav_target cfg p = wav_target cfg q ->
  j < k ->
  In (EvOutcome j p "success")
     (trace (conversion_thread run_ffmpeg makedirs cfg f walk running)) ->
  In (EvOutcome k q st)
     (trace (conversion_thread run_ffmpeg makedirs cfg f walk running)) ->
  st = "skipped (already exists)".
Proof.
  intros f walk running j k p q st Hov Hpq Hjk Hp Hq.
  destruct (conversion_thread_loop f walk running) as [E | [c' E]];
    [rewrite E in Hp; destruct Hp|].
  eapply convert_loop_clash; eassumption.
Qed.

End Env.
End CafGuiEnvProofs.

Module PathProofs.
Import CafGui.

Lemma string_length_app : forall a b : string,
  String.length (a ++ b) = String.length a + String.length b.
Proof. induction a as [|c a IH]; intros b; simpl; [reflexivity|]; rewrite IH; reflexivity. Qed.

Lemma string_app_cancel_r : forall a b s : string, a ++ s = b ++ s -> a = b.
Proof.
  induction a as [|c a IH]; intros [|d b] s H; simpl in H; try reflexivity.
  - apply (f_equal String.length) in H; simpl in H;
      rewrite string_length_app in H; lia.
  - apply (f_equal String.length) in H; simpl in H;
      rewrite string_length_app in H; lia.
  - injection H as -> H; f_equal; eapply IH; exact H.
Qed.

Lemma with_ext_inj : forall p q ext,
  with_ext p ext = with_ext q ext <-> splitext_root p = splitext_root q.
Proof.
  intros p q ext; unfold with_ext, splitext_root; split; intro H.
  - apply app_inj_tail in H as [H1 H2].
    apply string_app_cancel_r in H2; rewrite H1, H2; reflexivity.
  - apply app_inj_tail in H as [H1 H2]; rewrite H1, H2; reflexivity.
Qed.

Lemma common_len_app : forall sel r, common_len sel (sel ++ r)%list = length sel.
Proof.
  induction sel as [|a sel IH]; intros r; simpl; [reflexivity|].
  rewrite String.eqb_refl, IH; reflexivity.
Qed.

Lemma relpath_under : forall sel r, r <> [] -> relpath (sel ++ r)%list sel = r.
Proof.
  intros sel r Hr; unfold relpath; rewrite common_len_app, Nat.sub_diag.
  cbn [repeat app]; rewrite skipn_app, skipn_all, Nat.sub_diag; cbn [app skipn].
  destruct r; [contradiction|reflexivity].
Qed.

Lemma removelast_app_single : forall (l : path) (a : string),
  removelast (l ++ [a])%list = l.
Proof. intros; apply removelast_last. Qed.

End PathProofs.

Module DownPlanProofs.
Import Observe.

Section DownRun.

Variable sf_info : fs -> path -> option string.
Variable sf_read : fs -> path -> option string.
Variable sf_write : fs -> path -> string -> string -> option fs.
Variable makedirs : fs -> path -> fs + string.

Lemma filter_32bit_fst : forall f files,
  fst (WavDown.filter_32bit sf_info f files)
  = filter (fun w => Z.eqb (fst (WavDown.get_bit_depth sf_info f w)) 32) files.
Proof.
  intros f files; induction files as [|w rest IH]; [reflexivity|].
  cbn [WavDown.filter_32bit filter].
  destruct (WavDown.get_bit_depth sf_info f w) as [b evs].
  destruct (WavDown.filter_32bit sf_info f rest) as [keep evs']; cbn [fst] in *.
  rewrite IH; reflexivity.
Qed.

Lemma filter_32bit_quiet : forall f files,
  job_keys (snd (WavDown.filter_32bit sf_info f files)) = [] /\
  writes_of (snd (WavDown.filter_32bit sf_info f files)) = [].
Proof.
  intros f files; induction files as [|w rest IH]; [split; reflexivity|].
  cbn [WavDown.filter_32bit].
  assert (Hg : job_keys (snd (WavDown.get_bit_depth sf_info f w)) = [] /\
               writes_of (snd (WavDown.get_bit_depth sf_info f w)) = [])
    by (unfold WavDown.get_bit_depth; destruct (sf_info f w); split; reflexivity).
  destruct (WavDown.get_bit_depth sf_info f w) as [b evs].
  destruct (WavDown.filter_32bit sf_info f rest) as [keep evs'].
  cbn [snd] in *; destruct Hg as [G1 G2]; destruct IH as [I1 I2].
  unfold job_keys, writes_of in *; rewrite !flat_map_app, G1, G2, I1, I2.
  split; reflexivity.
Qed.

Lemma job_obs : forall f w sub bits,
  (bits = 24%Z \/ bits = 16%Z) ->
  job_keys (snd (WavDown.job sf_read sf_write makedirs f w sub bits))
  = [(w, WavDown.down_target w sub, bits)] /\
  Forall (fun x => x = (WavDown.down_target w sub, subtype_for bits))
    (writes_of (snd (WavDown.job sf_read sf_write makedirs f w sub bits))).
Proof.
  intros f w sub bits Hb; unfold WavDown.job, WavDown.convert_file.
  destruct (sf_read f w) as [data|].
  2: { split; [reflexivity|constructor]. }
  destruct Hb as [-> | ->]; cbn [Z.eqb Pos.eqb].
  all: destruct (makedirs f _) as [f1|].
  2, 4: split; [reflexivity|constructor].
  all: destruct (sf_write f1 _ data _); split; try reflexivity.
  all: cbn; constructor; [reflexivity|constructor].
Qed.

Lemma convert_loop_obs : forall to24 to16 files f,
  let tr := snd (WavDown.convert_loop sf_read sf_write makedirs to24 to16 files f) in
  job_keys tr = flat_map (down_plan to24 to16) files /\
  Forall (fun x => exists w, In w files /\
            ((to24 = true /\ x = (WavDown.down_target w "24bit", "PCM_24")) \/
             (to16 = true /\ x = (WavDown.down_target w "16bit", "PCM_16"))))
    (writes_of tr).
Proof.
  intros to24 to16 files; induction files as [|w rest IH]; intros f tr; subst tr;
    [split; [reflexivity|constructor]|].
  cbn [WavDown.convert_loop].
  destruct (if to24 then WavDown.job sf_read sf_write makedirs f w "24bit" 24 else (f, []))
    as [f1 e1] eqn:H1.
  destruct (if to16 then WavDown.job sf_read sf_write makedirs f1 w "16bit" 16 else (f1, []))
    as [f2 e2] eqn:H2.
  pose proof (IH f2) as [I1 I2].
  destruct (WavDown.convert_loop sf_read sf_write makedirs to24 to16 rest f2)
    as [f3 e3]; cbn [snd] in *.
  assert (E1 : job_keys e1 = (if to24 then [(w, WavDown.down_target w "24bit", 24%Z)] else [])
               /\ Forall (fun x => to24 = true /\
                           x = (WavDown.down_target w "24bit", "PCM_24")) (writes_of e1)).
  { destruct to24.
    - destruct (job_obs f w "24bit" 24 (or_introl eq_refl)) as [J W].
      rewrite H1 in J, W; cbn [snd] in *; split; [exact J|].
      eapply Forall_impl; [|exact W]; intros x Hx; split; [reflexivity|exact Hx].
    - inversion H1; split; [reflexivity|constructor]. }
  assert (E2 : job_keys e2 = (if to16 then [(w, WavDown.down_target w "16bit", 16%Z)] else [])
               /\ Forall (fun x => to16 = true /\
                           x = (WavDown.down_target w "16bit", "PCM_16")) (writes_of e2)).
  { destruct to16.
    - destruct (job_obs f1 w "16bit" 16 (or_intror eq_refl)) as [J W].
      rewrite H2 in J, W; cbn [snd] in *; split; [exact J|].
      eapply Forall_impl; [|exact W]; intros x Hx; split; [reflexivity|exact Hx].
    - inversion H2; split; [reflexivity|constructor]. }
  destruct E1 as [J1 W1]; destruct E2 as [J2 W2].
  unfold job_keys, writes_of in *; rewrite !flat_map_app, J1, J2, I1.
  split; [unfold down_plan; cbn [flat_map]; rewrite app_assoc; reflexivity|].
  apply Forall_app; split; [|apply Forall_app; split].
  - eapply Forall_impl; [|exact W1]; intros x Hx; exists w; split; [left; reflexivity|].
    left; exact Hx.
  - eapply Forall_impl; [|exact W2]; intros x Hx; exists w; split; [left; reflexivity|].
    right; exact Hx.
  - eapply Forall_impl; [|exact I2]; intros x [v [Hv Hx]]; exists v; split;
      [right; exact Hv | exact Hx].
Qed.

Lemma process_files_obs : forall f folder walk listing sub to24 to16,
  let r := WavDown.process_files sf_info sf_read sf_write makedirs f folder walk
             listing sub to24 to16 in
  let files32 := filter (fun w => Z.eqb (fst (WavDown.get_bit_depth sf_info f w)) 32)
                   (WavDown.find_wav_files folder walk listing sub) in
  job_keys (WavDown.trace r) = flat_map (down_plan to24 to16) files32 /\
  Forall (fun x => exists w, In w files32 /\
            ((to24 = true /\ x = (WavDown.down_target w "24bit", "PCM_24")) \/
             (to16 = true /\ x = (WavDown.down_target w "16bit", "PCM_16"))))
    (writes_of (WavDown.trace r)).
Proof.
  intros f folder walk listing sub to24 to16 r files32; subst r files32.
  unfold WavDown.process_files.
  destruct (WavDown.find_wav_files folder walk listing sub) as [|w0 ws];
    [split; [reflexivity|constructor]|].
  pose proof (filter_32bit_fst f (w0 :: ws)) as Hf.
  pose proof (filter_32bit_quiet f (w0 :: ws)) as [Q1 Q2].
  destruct (WavDown.filter_32bit sf_info f (w0 :: ws)) as [files evs];
    cbn [fst snd] in *; rewrite <- Hf.
  destruct files as [|x xs]; [cbn [WavDown.trace]; rewrite Q1, Q2;
                              split; [reflexivity|constructor]|].
  pose proof (convert_loop_obs to24 to16 (x :: xs) f) as [C1 C2].
  destruct (WavDown.convert_loop sf_read sf_write makedirs to24 to16 (x :: xs) f)
    as [f' tr]; cbn [snd WavDown.trace] in *.
  unfold job_keys, writes_of in *; rewrite !flat_map_app, Q1, Q2; cbn [app].
  split; [exact C1 | exact C2].
Qed.

End DownRun.
End DownPlanProofs.

Module RunOrderProofs.
Import CafGui Observe.

Section Gui.

Variable run_ffmpeg : fs -> list arg -> proc_result.
Variable makedirs : fs -> path -> fs + string.
Variable cfg : config.

(** With the flag never cleared, every file gets a job, in order. *)
Lemma convert_loop_all_attempted : forall running bd trim files i f c f' c' tr,
  (forall k, running k = true) ->
  convert_loop run_ffmpeg makedirs cfg running bd trim i files f c = (f', c', tr) ->
  outcomes_of tr = combine (seq i (length files)) files.
Proof.
  intros running bd trim files; induction files as [|caf rest IH];
    intros i f c f' c' tr Hrun H; cbn [convert_loop] in H.
  - inversion H; subst; reflexivity.
  - rewrite Hrun in H; cbn [negb] in H.
    pose proof (CafGuiProofs.convert_caf_to_wav_events run_ffmpeg makedirs cfg
                  f caf bd trim) as He.
    destruct (convert_caf_to_wav run_ffmpeg makedirs cfg f caf bd trim)
      as [[f1 r] evs]; cbn [snd] in He.
    destruct (convert_loop run_ffmpeg makedirs cfg running bd trim (S i) rest f1
                (bump (status_of r) c)) as [[f2 c2] tr'] eqn:Hl.
    inversion H; subst; clear H.
    unfold outcomes_of in *; cbn [flat_map].
    rewrite flat_map_app; destruct He as [-> | ->]; cbn [flat_map app length seq combine];
      f_equal; exact (IH _ _ _ _ _ _ Hrun Hl).
Qed.

Lemma conversion_thread_all_attempted : forall f walk running,
  ffmpeg_available cfg = true -> (forall k, running k = true) ->
  outcomes_of (trace (conversion_thread run_ffmpeg makedirs cfg f walk running))
  = combine (seq 0 (length (find_caf_files walk))) (find_caf_files walk).
Proof.
  intros f walk running Hav Hrun; unfold conversion_thread; rewrite Hav; cbn [negb].
  destruct (find_caf_files walk) as [|c0 cs] eqn:Hfiles; [reflexivity|].
  rewrite <- Hfiles.
  destruct (convert_loop run_ffmpeg makedirs cfg running (bit_depth cfg)
              (trim_silence cfg) 0 (find_caf_files walk) f (0, 0, 0))
    as [[f' [[cv sk] er]] tr] eqn:Hl.
  exact (convert_loop_all_attempted _ _ _ _ _ _ _ _ _ _ Hrun Hl).
Qed.

End Gui.
End RunOrderProofs.

Module CliProofs.
Import CafCliMain.

Section Cli.

Variable run_ffmpeg : fs -> list arg -> proc_result.
Variable mkdir : fs -> path -> fs + string.

Lemma main_loop_steps : forall files f acc,
  match main_loop run_ffmpeg mkdir f files acc with
  | NoFolder => False
  | Finished f' rs =>
      exists rs', rs = (rev acc ++ rs')%list /\ map fst rs' = files /\
                  cli_steps run_ffmpeg mkdir f rs' f'
  | Aborted fA rs msg =>
      exists rs' caf rest f0,
        rs = (rev acc ++ rs')%list /\ files = (map fst rs' ++ caf :: rest)%list /\
        cli_steps run_ffmpeg mkdir f rs' f0 /\
        convert_caf_to_wav run_ffmpeg mkdir f0 caf (CafCli.out_path caf) = inr (fA, msg)
  end.
Proof.
  induction files as [|caf rest IH]; intros f acc; cbn [main_loop].
  - exists []; rewrite app_nil_r; split; [reflexivity|split; [reflexivity|constructor]].
  - destruct (convert_caf_to_wav run_ffmpeg mkdir f caf (CafCli.out_path caf))
      as [[f1 ok]|[f1 msg]] eqn:Hc.
    + unfold convert_caf_to_wav in Hc.
      destruct (mkdir f (dirname (CafCli.out_path caf))) as [g1|m] eqn:Hm;
        [|discriminate].
      destruct (run_ffmpeg g1 (CafCli.ffmpeg_cmd caf (CafCli.out_path caf)))
        as [m|g2 rc err] eqn:Hr; [discriminate|].
      injection Hc as Ef Eok; subst f1 ok.
      specialize (IH g2 ((caf, Z.eqb rc 0) :: acc)).
      destruct (main_loop run_ffmpeg mkdir g2 rest ((caf, Z.eqb rc 0) :: acc))
        as [|f' rs|fA rs msg]; [exact IH| |].
      * destruct IH as [rs' [E1 [E2 E3]]].
        exists ((caf, Z.eqb rc 0) :: rs'); split; [|split].
        -- rewrite E1; cbn [rev]; rewrite <- app_assoc; reflexivity.
        -- cbn [map fst]; rewrite E2; reflexivity.
        -- econstructor; eassumption.
      * destruct IH as [rs' [c [r [f0 [E1 [E2 [E3 E4]]]]]]].
        exists ((caf, Z.eqb rc 0) :: rs'), c, r, f0; split; [|split; [|split]].
        -- rewrite E1; cbn [rev]; rewrite <- app_assoc; reflexivity.
        -- rewrite E2; reflexivity.
        -- econstructor; eassumption.
        -- exact E4.
    + exists [], caf, rest, f; split; [rewrite app_nil_r; reflexivity|].
      split; [reflexivity|split; [constructor|exact Hc]].
Qed.

Lemma main_loop_no_raise : forall files f acc,
  (forall f d, exists f1, mkdir f d = inl f1) ->
  (forall f cmd, exists f' rc err, run_ffmpeg f cmd = Completed f' rc err) ->
  exists f' rs, main_loop run_ffmpeg mkdir f files acc = Finished f' rs.
Proof.
  induction files as [|caf rest IH]; intros f acc Hmk Hrun; cbn [main_loop].
  - eexists; eexists; reflexivity.
  - unfold convert_caf_to_wav at 1.
    destruct (Hmk f (dirname (CafCli.out_path caf))) as [f1 Hm]; rewrite Hm.
    destruct (Hrun f1 (CafCli.ffmpeg_cmd caf (CafCli.out_path caf)))
      as [f2 [rc [err Hr]]]; rewrite Hr.
    exact (IH f2 _ Hmk Hrun).
Qed.

Lemma main_finishes : forall f walk,
  (forall f d, exists f1, mkdir f d = inl f1) ->
  (forall f cmd, exists f' rc err, run_ffmpeg f cmd = Completed f' rc err) ->
  exists f' rs, main run_ffmpeg mkdir f true walk = Finished f' rs /\
    map fst rs = find_caf_files walk /\ cli_steps run_ffmpeg mkdir f rs f'.
Proof.
  intros f walk Hmk Hrun; unfold main; cbn [negb].
  pose proof (main_loop_steps (find_caf_files walk) f []) as H.
  destruct (main_loop_no_raise (find_caf_files walk) f [] Hmk Hrun) as [f' [rs E]].
  rewrite E in H |- *; destruct H as [rs' [E1 [E2 E3]]].
  cbn [rev app] in E1; subst rs'.
  exists f', rs; split; [reflexivity|split; assumption].
Qed.

End Cli.
End CliProofs.

Module Claims.
Import CafGui CafGuiProofs Samples.

(** C9: planned destinations.  With an output root, the CAF GUI re-roots the
    path relative to the source root and gives it the [.wav] extension;
    without one, the CAF GUI writes next to the source, the downconverter
    into a [24bit]/[16bit] subdirectory and the command-line script into
    [32bit_wav].  Each is a function of the configuration and the source
    path only. *)
Theorem planned_destinations :
  (forall cfg o os dirs name,
     output_directory cfg = Some (o :: os) ->
     wav_target cfg (selected_directory cfg ++ dirs ++ [name])%list
     = ((o :: os) ++ dirs ++ [String.append (fst (splitext_name name)) ".wav"])%list) /\
  (forall cfg p,
     (output_directory cfg = None \/ output_directory cfg = Some []) ->
     wav_target cfg p
     = (dirname p ++ [String.append (fst (splitext_name (basename p))) ".wav"])%list) /\
  (forall p sub, WavDown.down_target p sub = (dirname p ++ [sub; basename p])%list) /\
  (forall p, CafCli.out_path p
             = (dirname p ++ ["32bit_wav"; String.append (stem (basename p)) ".wav"])%list).
Proof.
  split; [|split; [|split]].
  - intros cfg o os dirs name Ho; unfold wav_target; rewrite Ho.
    rewrite PathProofs.relpath_under by (destruct dirs; discriminate).
    unfold join, with_ext, basename.
    rewrite PathProofs.removelast_app_single, last_last; reflexivity.
  - intros cfg p [Ho | Ho]; unfold wav_target; rewrite Ho; reflexivity.
  - intros; unfold WavDown.down_target, join; rewrite <- app_assoc; reflexivity.
  - intros; unfold CafCli.out_path, join; rewrite <- app_assoc; reflexivity.
Qed.

(** C6 (amended): [get_bit_depth] never fails.  It maps a subtype to 32 when
    it contains [PCM_32] or [FLOAT], else 24, 16 or 8 for [PCM_24], [PCM_16],
    [PCM_8], else 0; a header that cannot be read gives 0 and a logged error.
    Only the bit depth is returned, and only 32-bit files are kept for
    conversion. *)
Theorem get_bit_depth_table : forall sf_info f p,
  (sf_info f p = None ->
     WavDown.get_bit_depth sf_info f p = (0%Z, [EvClassifyError p])) /\
  (forall st, sf_info f p = Some st ->
     WavDown.get_bit_depth sf_info f p = (WavDown.bits_of_subtype st, [])) /\
  In (fst (WavDown.get_bit_depth sf_info f p)) [32; 24; 16; 8; 0]%Z /\
  WavDown.bits_of_subtype "FLOAT" = 32%Z /\
  WavDown.bits_of_subtype "PCM_32" = 32%Z /\
  WavDown.bits_of_subtype "PCM_24" = 24%Z /\
  WavDown.bits_of_subtype "PCM_16" = 16%Z /\
  WavDown.bits_of_subtype "DOUBLE" = 0%Z /\
  WavDown.bits_of_subtype "PCM_U8" = 0%Z /\
  (forall files w, In w (fst (WavDown.filter_32bit sf_info f files)) ->
     fst (WavDown.get_bit_depth sf_info f w) = 32%Z).
Proof.
  intros sf_info f p.
  split; [intros H; unfold WavDown.get_bit_depth; rewrite H; reflexivity|].
  split; [intros st H; unfold WavDown.get_bit_depth; rewrite H; reflexivity|].
  split.
  { unfold WavDown.get_bit_depth; destruct (sf_info f p) as [st|];
      [|simpl; tauto].
    unfold WavDown.bits_of_subtype; cbn [fst].
    destruct (_ || _); [simpl; tauto|].
    destruct (Py.contains "PCM_24" st); [simpl; tauto|].
    destruct (Py.contains "PCM_16" st); [simpl; tauto|].
    destruct (Py.contains "PCM_8" st); simpl; tauto. }
  do 6 (split; [reflexivity|]).
  intros files; induction files as [|x rest IH]; intros w H; [destruct H|].
  cbn [WavDown.filter_32bit] in H.
  destruct (WavDown.get_bit_depth sf_info f x) as [b evs] eqn:Hb.
  destruct (WavDown.filter_32bit sf_info f rest) as [keep evs'] eqn:Hr.
  cbn [fst] in H, IH.
  destruct (Z.eqb b 32) eqn:E.
  - destruct H as [<- | H]; [rewrite Hb; apply Z.eqb_eq; exact E|].
    apply IH; exact H.
  - apply IH; exact H.
Qed.

(** C6 counterexample: a 32-bit integer PCM file and a 32-bit float file get
    the same classification, so no result distinguishes FLOAT from INTEGER. *)
Lemma pcm32_and_float_same_class :
  sf_info_sample [] ["music"; "a.wav"] = Some "FLOAT" /\
  sf_info_sample [] ["music"; "c.wav"] = Some "PCM_32" /\
  WavDown.get_bit_depth sf_info_sample [] ["music"; "a.wav"] = (32%Z, []) /\
  WavDown.get_bit_depth sf_info_sample [] ["music"; "c.wav"] = (32%Z, []).
Proof. repeat split; vm_compute; reflexivity. Qed.

(** C10 (amended): [convert_file] always returns a boolean.  For a target
    other than 24 or 16 it returns false and writes nothing (the input has
    been read by then); it returns true only when reading, creating the
    directory and writing all succeeded, so any failure of these gives
    false. *)
Theorem convert_file_total : forall sf_read sf_write makedirs f i o t,
  let '(ok, f', evs) := WavDown.convert_file sf_read sf_write makedirs f i o t in
  (t <> 24%Z -> t <> 16%Z -> ok = false /\ f' = f /\ evs = [EvRead i]) /\
  (ok = true ->
     (t = 24%Z \/ t = 16%Z) /\
     exists data f1, sf_read f i = Some data /\
       makedirs f (dirname o) = inl f1 /\
       sf_write f1 o data (if Z.eqb t 24 then "PCM_24" else "PCM_16") = Some f').
Proof.
  intros; unfold WavDown.convert_file.
  destruct (sf_read f i) as [data|] eqn:Hr.
  2:{ split; [auto|discriminate]. }
  destruct (Z.eqb t 24) eqn:E24; [|destruct (Z.eqb t 16) eqn:E16].
  3:{ split; [auto|discriminate]. }
  all: destruct (makedirs f (dirname o)) as [f1|msg] eqn:Hm;
    [|split; [intros; split; [reflexivity|]; lia|discriminate]].
  all: destruct (sf_write f1 o data _) as [f2|] eqn:Hw;
    [|split; [intros; lia|discriminate]].
  all: split; [intros; lia|intros _].
  - split; [left; apply Z.eqb_eq; exact E24|].
    exists data, f1; auto.
  - split; [right; apply Z.eqb_eq; exact E16|].
    exists data, f1; auto.
Qed.

(** C10 counterexample: with target 8 the input is still read. *)
Lemma convert_file_reads_bad_target :
  WavDown.convert_file sf_read_sample sf_write_sample mkdirs_ok []
    ["music"; "a.wav"] ["music"; "8bit"; "a.wav"] 8
  = (false, [], [EvRead ["music"; "a.wav"]]).
Proof. vm_compute; reflexivity. Qed.

(** The sample ffmpeg and makedirs meet the environment assumptions. *)
Lemma out_arg_ffmpeg_cmd : forall cfg caf wav bd trim,
  out_arg (ffmpeg_cmd cfg caf wav bd trim) = wav.
Proof. intros; unfold ffmpeg_cmd; destruct trim; reflexivity. Qed.

Lemma ffmpeg_ok_keeps : forall f cmd f' rc err p,
  ffmpeg_ok f cmd = Completed f' rc err -> fs_exists f p = true ->
  fs_exists f' p = true.
Proof.
  intros f cmd f' rc err p H Hp; unfold ffmpeg_ok in H.
  destruct (_ && _); injection H as <- _ _; [exact Hp|].
  simpl; rewrite Hp, orb_true_r; reflexivity.
Qed.

Lemma ffmpeg_ok_creates : forall cfg f caf wav bd trim f' err,
  ffmpeg_ok f (ffmpeg_cmd cfg caf wav bd trim) = Completed f' 0%Z err ->
  fs_exists f' wav = true.
Proof.
  intros cfg f caf wav bd trim f' err H; unfold ffmpeg_ok in H.
  rewrite out_arg_ffmpeg_cmd in H.
  destruct (_ && _); [discriminate H|].
  injection H as <- _; simpl; rewrite CafGuiEnvProofs.path_eqb_refl; reflexivity.
Qed.

Lemma mkdirs_ok_files : forall f d f1 p,
  mkdirs_ok f d = inl f1 -> fs_lookup f1 p = fs_lookup f p.
Proof. intros f d f1 p H; injection H as <-; reflexivity. Qed.

Lemma mkdirs_ok_existing : forall f p,
  fs_exists f p = true -> exists f1, mkdirs_ok f (dirname p) = inl f1.
Proof. intros f p _; exists f; reflexivity. Qed.

(** C2 (amended): in the CAF GUI a job whose destination exists while
    overwrite is disabled is skipped, ffmpeg is not started and no file
    changes.  The downconverter has no such check: once the input is read
    and the directory made, [convert_file] writes its destination; the
    command-line script always passes [-y] to ffmpeg. *)
Theorem existing_destination_skipped : forall run_ffmpeg makedirs cfg,
  (forall f d f1 p, makedirs f d = inl f1 -> fs_lookup f1 p = fs_lookup f p) ->
  (forall f p, fs_exists f p = true -> exists f1, makedirs f (dirname p) = inl f1) ->
  overwrite cfg = false ->
  forall f caf bd trim,
  fs_exists f (wav_target cfg caf) = true ->
  (let '(f', r, evs) := convert_caf_to_wav run_ffmpeg makedirs cfg f caf bd trim in
   status_of r = "skipped (already exists)" /\ filter is_invoke evs = [] /\
   forall p, fs_lookup f' p = fs_lookup f p) /\
  (forall sf_read sf_write mk g i o t data g1,
     sf_read g i = Some data -> (t = 24%Z \/ t = 16%Z) ->
     mk g (dirname o) = inl g1 ->
     exists st, In (EvWrite o st)
                  (snd (WavDown.convert_file sf_read sf_write mk g i o t))) /\
  (forall i o, In (AStr "-y") (CafCli.ffmpeg_cmd i o)).
Proof.
  intros run_ffmpeg makedirs cfg Hfiles Hexisting Hov f caf bd trim Hex.
  split; [|split].
  - pose proof (CafGuiEnvProofs.convert_caf_to_wav_existing run_ffmpeg makedirs cfg
                  Hfiles Hexisting f caf bd trim Hov Hex) as H.
    destruct (convert_caf_to_wav run_ffmpeg makedirs cfg f caf bd trim)
      as [[f' r] evs]; destruct H as [H1 [-> H3]]; auto.
  - intros sf_read sf_write mk g i o t data g1 Hr Ht Hm.
    unfold WavDown.convert_file; rewrite Hr.
    destruct Ht as [-> | ->]; cbn -[dirname]; rewrite Hm;
      (destruct (sf_write g1 o data _); eexists; cbn; right; left; reflexivity).
  - intros; simpl; auto.
Qed.

Lemma existing_destination_skipped_witness :
  (let '(f', r, evs) :=
     convert_caf_to_wav ffmpeg_ok mkdirs_ok (gui_cfg None false)
       [(["music"; "x.wav"], "old")] ["music"; "x.caf"] "24" true in
   status_of r = "skipped (already exists)" /\ filter is_invoke evs = [] /\
   forall p, fs_lookup f' p = fs_lookup [(["music"; "x.wav"], "old")] p) /\
  (forall sf_read sf_write mk g i o t data g1,
     sf_read g i = Some data -> (t = 24%Z \/ t = 16%Z) ->
     mk g (dirname o) = inl g1 ->
     exists st, In (EvWrite o st)
                  (snd (WavDown.convert_file sf_read sf_write mk g i o t))) /\
  (forall i o, In (AStr "-y") (CafCli.ffmpeg_cmd i o)).
Proof.
  apply (existing_destination_skipped ffmpeg_ok mkdirs_ok (gui_cfg None false)
           mkdirs_ok_files mkdirs_ok_existing eq_refl).
  vm_compute; reflexivity.
Defined.

(** C2 counterexample: the downconverter overwrites an existing 24-bit file. *)
Lemma downconvert_overwrites_existing :
  let before := [(["music"; "24bit"; "a.wav"], "old")] in
  fs_exists before ["music"; "24bit"; "a.wav"] = true /\
  fs_lookup
    (fst (WavDown.job sf_read_sample sf_write_sample mkdirs_ok before
            ["music"; "a.wav"] "24bit" 24))
    ["music"; "24bit"; "a.wav"] = Some "samples:PCM_24".
Proof. cbv zeta; split; vm_compute; reflexivity. Qed.

(** C5 (amended): destinations are not checked for uniqueness before the
    jobs run.  In the CAF GUI two sources get the same destination exactly
    when their paths (relative to the source root when an output root is
    set) agree once the extension is removed; once the GUI starts (ffmpeg
    available, never cancelled) every found file gets a job, in order,
    whatever the destinations; when two jobs share a destination and the
    earlier one succeeded, the later one is skipped as already existing
    (overwrite disabled, ffmpeg creating its output on exit 0 and deleting
    nothing).  The command-line converter, when nothing raises, likewise
    attempts every found file. *)
Theorem destinations_collide_iff_same_key :
  (forall cfg p q,
     wav_target cfg p = wav_target cfg q <-> dest_key cfg p = dest_key cfg q) /\
  (forall run_ffmpeg makedirs cfg f walk running,
     ffmpeg_available cfg = true -> (forall k, running k = true) ->
     Observe.outcomes_of (trace (conversion_thread run_ffmpeg makedirs cfg f walk running))
     = combine (seq 0 (length (find_caf_files walk))) (find_caf_files walk)) /\
  (forall run_ffmpeg makedirs cfg,
     (forall f d f1 p, makedirs f d = inl f1 -> fs_lookup f1 p = fs_lookup f p) ->
     (forall f p, fs_exists f p = true -> exists f1, makedirs f (dirname p) = inl f1) ->
     (forall f cmd f' rc err p, run_ffmpeg f cmd = Completed f' rc err ->
        fs_exists f p = true -> fs_exists f' p = true) ->
     (forall f caf wav bd trim f' err,
        run_ffmpeg f (ffmpeg_cmd cfg caf wav bd trim) = Completed f' 0%Z err ->
        fs_exists f' wav = true) ->
     overwrite cfg = false ->
     forall f walk running j k p q st,
     wav_target cfg p = wav_target cfg q -> j < k ->
     In (EvOutcome j p "success")
        (trace (conversion_thread run_ffmpeg makedirs cfg f walk running)) ->
     In (EvOutcome k q st)
        (trace (conversion_thread run_ffmpeg makedirs cfg f walk running)) ->
     st = "skipped (already exists)") /\
  (forall run_ffmpeg mkdir f walk,
     (forall f d, exists f1, mkdir f d = inl f1) ->
     (forall f cmd, exists f' rc err, run_ffmpeg f cmd = Completed f' rc err) ->
     exists f' rs, CafCliMain.main run_ffmpeg mkdir f true walk = CafCliMain.Finished f' rs /\
       map fst rs = CafCliMain.find_caf_files walk).
Proof.
  split; [|split; [|split]].
  - intros cfg p q; unfold wav_target, dest_key.
    destruct (output_directory cfg) as [[|o os]|].
    + apply PathProofs.with_ext_inj.
    + unfold join; split; intro H.
      * apply app_inv_head in H; apply (proj1 (PathProofs.with_ext_inj _ _ ".wav")); exact H.
      * f_equal; apply (proj2 (PathProofs.with_ext_inj _ _ ".wav")); exact H.
    + apply PathProofs.with_ext_inj.
  - intros run_ffmpeg makedirs cfg f walk running Hav Hrun.
    exact (RunOrderProofs.conversion_thread_all_attempted run_ffmpeg makedirs cfg
             f walk running Hav Hrun).
  - intros run_ffmpeg makedirs cfg Hfiles Hexisting Hkeeps Hcreates Hov
      f walk running j k p q st Hpq Hjk Hp Hq.
    eapply CafGuiEnvProofs.conversion_thread_clash; eauto.
  - intros run_ffmpeg mkdir f walk Hmk Hrun.
    destruct (CliProofs.main_finishes run_ffmpeg mkdir f walk Hmk Hrun)
      as [f' [rs [E1 [E2 _]]]].
    exists f', rs; split; assumption.
Qed.

(** Each clause at the case-variant pair [x.caf], [x.CAF]. *)
Lemma destinations_collide_iff_same_key_witness :
  let p1 := ["music"; "x.caf"] in
  let p2 := ["music"; "x.CAF"] in
  let cfg := gui_cfg None false in
  (wav_target cfg p1 = wav_target cfg p2 <-> dest_key cfg p1 = dest_key cfg p2) /\
  Observe.outcomes_of (trace (conversion_thread ffmpeg_ok mkdirs_ok cfg [] [p1; p2] (fun _ => true)))
  = combine (seq 0 (length (find_caf_files [p1; p2]))) (find_caf_files [p1; p2]) /\
  (forall st,
     In (EvOutcome 1 p2 st)
        (trace (conversion_thread ffmpeg_ok mkdirs_ok cfg [] [p1; p2] (fun _ => true))) ->
     st = "skipped (already exists)") /\
  (exists f' rs,
     CafCliMain.main ffmpeg_ok mkdirs_ok [] true [["music"; "a.caf"]; ["music"; "b.caf"]]
     = CafCliMain.Finished f' rs /\
     map fst rs = CafCliMain.find_caf_files [["music"; "a.caf"]; ["music"; "b.caf"]]).
Proof.
  cbv zeta.
  destruct destinations_collide_iff_same_key as [H1 [H2 [H3 H4]]].
  split; [apply H1|split; [|split]].
  - apply H2; [reflexivity|intros; reflexivity].
  - intros st Hst.
    apply (H3 ffmpeg_ok mkdirs_ok (gui_cfg None false)
             mkdirs_ok_files mkdirs_ok_existing ffmpeg_ok_keeps
             (ffmpeg_ok_creates (gui_cfg None false)) eq_refl
             [] [["music"; "x.caf"]; ["music"; "x.CAF"]] (fun _ => true) 0 1
             ["music"; "x.caf"] ["music"; "x.CAF"] st).
    + vm_compute; reflexivity.
    + lia.
    + vm_compute; repeat (first [left; reflexivity | right]).
    + exact Hst.
  - apply H4.
    + intros f d; exists f; reflexivity.
    + intros f cmd; unfold ffmpeg_ok; cbv zeta;
      destruct (_ && _); do 3 eexists; reflexivity.
Defined.

(** C5 counterexample: [x.caf] and [x.CAF] in one folder are both found and
    both planned to [x.wav]; the clash shows only when the second job runs
    and is skipped. *)
Lemma case_variant_collision :
  let p1 := ["music"; "x.caf"] in
  let p2 := ["music"; "x.CAF"] in
  let cfg := gui_cfg None false in
  p1 <> p2 /\
  find_caf_files [p1; p2] = [p1; p2] /\
  wav_target cfg p1 = wav_target cfg p2 /\
  filter is_outcome
    (trace (conversion_thread ffmpeg_ok mkdirs_ok cfg [] [p1; p2] (fun _ => true)))
  = [EvOutcome 0 p1 "success"; EvOutcome 1 p2 "skipped (already exists)"].
Proof.
  cbv zeta; split; [discriminate|]; split; [|split]; vm_compute; reflexivity.
Qed.

(** C3 (amended): in the CAF GUI, with overwrite disabled, a source converted
    by a first run is skipped by any second run on the same files.  The
    downconverter checks no destination: any run that finds the same 32-bit
    files, for instance a second run on the filesystem the first one left,
    runs the same jobs again, one per requested depth for each 32-bit file. *)
Theorem second_run_skips_converted :
  (forall run_ffmpeg makedirs cfg,
   (forall f d f1 p, makedirs f d = inl f1 -> fs_lookup f1 p = fs_lookup f p) ->
   (forall f p, fs_exists f p = true -> exists f1, makedirs f (dirname p) = inl f1) ->
   (forall f cmd f' rc err p, run_ffmpeg f cmd = Completed f' rc err ->
      fs_exists f p = true -> fs_exists f' p = true) ->
   (forall f caf wav bd trim f' err,
      run_ffmpeg f (ffmpeg_cmd cfg caf wav bd trim) = Completed f' 0%Z err ->
      fs_exists f' wav = true) ->
   overwrite cfg = false ->
   forall f walk run1 run2 j k src st,
   In (EvOutcome j src "success")
      (trace (conversion_thread run_ffmpeg makedirs cfg f walk run1)) ->
   In (EvOutcome k src st)
      (trace (conversion_thread run_ffmpeg makedirs cfg
                (final_fs (conversion_thread run_ffmpeg makedirs cfg f walk run1))
                walk run2)) ->
   st = "skipped (already exists)") /\
  (forall sf_info sf_read sf_write makedirs f1 f2 folder walk1 listing1 walk2 listing2
     sub to24 to16,
   let files32 f walk listing :=
     filter (fun w => Z.eqb (fst (WavDown.get_bit_depth sf_info f w)) 32)
       (WavDown.find_wav_files folder walk listing sub) in
   files32 f2 walk2 listing2 = files32 f1 walk1 listing1 ->
   Observe.job_keys (WavDown.trace (WavDown.process_files sf_info sf_read sf_write
                       makedirs f2 folder walk2 listing2 sub to24 to16))
   = Observe.job_keys (WavDown.trace (WavDown.process_files sf_info sf_read sf_write
                         makedirs f1 folder walk1 listing1 sub to24 to16)) /\
   Observe.job_keys (WavDown.trace (WavDown.process_files sf_info sf_read sf_write
                       makedirs f1 folder walk1 listing1 sub to24 to16))
   = flat_map (Observe.down_plan to24 to16) (files32 f1 walk1 listing1)).
Proof.
  split.
  - intros run_ffmpeg makedirs cfg Hfiles Hexisting Hkeeps Hcreates Hov
      f walk run1 run2 j k src st H1 H2.
    eapply (CafGuiEnvProofs.conversion_thread_skips run_ffmpeg makedirs cfg
              Hfiles Hexisting Hkeeps); [exact Hov| |exact H2].
    eapply (CafGuiEnvProofs.conversion_thread_success run_ffmpeg makedirs cfg
              Hfiles Hkeeps Hcreates); exact H1.
  - intros sf_info sf_read sf_write makedirs f1 f2 folder walk1 listing1 walk2 listing2
      sub to24 to16 files32 Heq.
    destruct (DownPlanProofs.process_files_obs sf_info sf_read sf_write makedirs
                f1 folder walk1 listing1 sub to24 to16) as [E1 _].
    destruct (DownPlanProofs.process_files_obs sf_info sf_read sf_write makedirs
                f2 folder walk2 listing2 sub to24 to16) as [E2 _].
    cbv zeta in E1, E2; subst files32; cbv beta in Heq |- *.
    rewrite E1, E2, Heq; split; reflexivity.
Qed.

(** The CAF clause on one file converted twice; the downconverter clause on
    a recursive scan whose second run also sees the first run's outputs. *)
Lemma second_run_skips_converted_witness :
  (forall st,
   In (EvOutcome 0 ["music"; "x.caf"] st)
      (trace (conversion_thread ffmpeg_ok mkdirs_ok (gui_cfg None false)
                (final_fs (conversion_thread ffmpeg_ok mkdirs_ok (gui_cfg None false)
                             [] [["music"; "x.caf"]] (fun _ => true)))
                [["music"; "x.caf"]] (fun _ => true))) ->
   st = "skipped (already exists)") /\
  (let run f walk := WavDown.process_files sf_info_sample sf_read_sample sf_write_sample
                       mkdirs_ok f ["music"] walk [] true true true in
   let walk1 := [["music"; "a.wav"]; ["music"; "b.wav"]] in
   let walk2 := (walk1 ++ [["music"; "24bit"; "a.wav"]; ["music"; "16bit"; "a.wav"]])%list in
   Observe.job_keys (WavDown.trace (run (WavDown.final_fs (run [] walk1)) walk2))
   = Observe.job_keys (WavDown.trace (run [] walk1)) /\
   Observe.job_keys (WavDown.trace (run [] walk1))
   = [(["music"; "a.wav"], ["music"; "24bit"; "a.wav"], 24%Z);
      (["music"; "a.wav"], ["music"; "16bit"; "a.wav"], 16%Z)]).
Proof.
  destruct second_run_skips_converted as [H1 H2]; split.
  - intros st Hst.
    apply (H1 ffmpeg_ok mkdirs_ok (gui_cfg None false)
             mkdirs_ok_files mkdirs_ok_existing ffmpeg_ok_keeps
             (ffmpeg_ok_creates (gui_cfg None false)) eq_refl
             [] [["music"; "x.caf"]] (fun _ => true) (fun _ => true) 0 0
             ["music"; "x.caf"] st).
    + vm_compute; repeat (first [left; reflexivity | right]).
    + exact Hst.
  - cbv zeta.
    destruct (H2 sf_info_sample sf_read_sample sf_write_sample mkdirs_ok
                (WavDown.final_fs
                   (WavDown.process_files sf_info_sample sf_read_sample sf_write_sample
                      mkdirs_ok [] ["music"] [["music"; "a.wav"]; ["music"; "b.wav"]]
                      [] true true true)) [] ["music"]
                ([["music"; "a.wav"]; ["music"; "b.wav"]]
                 ++ [["music"; "24bit"; "a.wav"]; ["music"; "16bit"; "a.wav"]])%list []
                [["music"; "a.wav"]; ["music"; "b.wav"]] [] true true true)
      as [Ea Eb]; [vm_compute; reflexivity|].
    split; [exact Ea|etransitivity; [exact Eb|vm_compute; reflexivity]].
Defined.

(** C3 counterexample: the downconverter converts the same file again on a
    second run. *)
Lemma downconvert_second_run_converts :
  let run f := WavDown.process_files sf_info_sample sf_read_sample sf_write_sample
                 mkdirs_ok f ["music"] [] ["a.wav"] false true false in
  filter is_job (WavDown.trace (run [])) =
    [EvJob ["music"; "a.wav"] ["music"; "24bit"; "a.wav"] 24 true] /\
  filter is_job (WavDown.trace (run (WavDown.final_fs (run [])))) =
    [EvJob ["music"; "a.wav"] ["music"; "24bit"; "a.wav"] 24 true].
Proof. cbv zeta; split; vm_compute; reflexivity. Qed.

(** C4 (amended): in the CAF GUI the flag is read exactly once before each
    job; when it is first found cleared before job [k], exactly [k] jobs have
    been attempted, the run is cancelled and nothing follows that read.  The
    downconverter reads no flag and attempts every planned job. *)
Theorem cancellation_polled_per_job :
  (forall run_ffmpeg makedirs cfg f walk running,
     polled 0 (trace (conversion_thread run_ffmpeg makedirs cfg f walk running))) /\
  (forall run_ffmpeg makedirs cfg f walk running k,
     let r := conversion_thread run_ffmpeg makedirs cfg f walk running in
     k < planned r -> (forall j, j < k -> running j = true) -> running k = false ->
     attempted r = k /\ cancelled r = true /\
     exists pre, trace r = (pre ++ [EvPoll k; EvCancelled])%list) /\
  (forall sf_info sf_read sf_write makedirs f folder walk listing sub to24 to16,
     let r := WavDown.process_files sf_info sf_read sf_write makedirs f folder
                walk listing sub to24 to16 in
     filter is_poll (WavDown.trace r) = [] /\
     length (filter is_job (WavDown.trace r))
     = WavDown.found_32bit r * (Nat.b2n to24 + Nat.b2n to16)).
Proof.
  split; [|split].
  - intros run_ffmpeg makedirs cfg f walk running.
    destruct (CafGuiEnvProofs.conversion_thread_loop run_ffmpeg makedirs cfg
                f walk running) as [-> | [c' E]]; [constructor|].
    eapply CafGuiProofs.convert_loop_polled; exact E.
  - intros run_ffmpeg makedirs cfg f walk running k r Hk Hrun Hstop; subst r.
    unfold conversion_thread in *.
    destruct (negb (ffmpeg_available cfg)); [simpl in Hk; lia|].
    destruct (find_caf_files walk) as [|c0 cs] eqn:Hfiles; [simpl in Hk; lia|].
    rewrite <- Hfiles in *; revert Hk.
    destruct (convert_loop run_ffmpeg makedirs cfg running (bit_depth cfg)
                (trim_silence cfg) 0 (find_caf_files walk) f (0, 0, 0))
      as [[f' [[cv sk] er]] tr] eqn:Hl.
    cbn [planned]; intros Hk.
    destruct (CafGuiProofs.convert_loop_stops run_ffmpeg makedirs cfg running
                (bit_depth cfg) (trim_silence cfg) (find_caf_files walk)
                0 k f (0, 0, 0) f' (cv, sk, er) tr ltac:(lia) ltac:(lia)
                ltac:(intros; apply Hrun; lia) Hstop Hl) as [Ho [Hx Hpre]].
    unfold attempted, cancelled; cbn [trace].
    split; [lia|]; split; assumption.
  - intros; apply WavDownProofs.process_files_jobs.
Qed.

(** C4 counterexample: a downconversion run performs two jobs without ever
    reading a cancellation flag. *)
Lemma downconvert_never_polls :
  let r := WavDown.process_files sf_info_sample sf_read_sample sf_write_sample
             mkdirs_ok [] ["music"] [] ["a.wav"; "b.wav"] false true true in
  filter is_poll (WavDown.trace r) = [] /\
  length (filter is_job (WavDown.trace r)) = 2.
Proof. cbv zeta; split; vm_compute; reflexivity. Qed.

(** Scenario D of the specification on the CAF GUI: the flag is cleared after
    the first of five jobs. *)
Example scenario_d :
  let r := conversion_thread ffmpeg_ok mkdirs_ok (gui_cfg None false) []
             [["music"; "1.caf"]; ["music"; "2.caf"]; ["music"; "3.caf"];
              ["music"; "4.caf"]; ["music"; "5.caf"]]
             (fun i => Nat.eqb i 0) in
  planned r = 5 /\ attempted r = 1 /\ cancelled r = true /\
  length (filter is_invoke (trace r)) = 1.
Proof. cbv zeta; repeat split; vm_compute; reflexivity. Qed.

Lemma bump_not_s : forall a x cv sk er,
  a <> "s"%char -> bump (String a x) (cv, sk, er) = (cv, sk, S er).
Proof.
  intros a x cv sk er Ha; unfold bump, Py.startswith.
  destruct (String.eqb (String a x) "success") eqn:E.
  - apply String.eqb_eq in E; injection E as E _; contradiction.
  - cbn [String.prefix]; destruct (ascii_dec "s" a) as [<-|_]; [contradiction|].
    reflexivity.
Qed.

(** C7 (amended): when ffmpeg exits non-zero with a non-empty diagnostic that
    does not contain "already exists", the status is "FFmpeg error: " with
    the last three newline-separated pieces of the diagnostic; when starting
    ffmpeg raises, it is "Exception: " with the message; when making the
    output directory raises, it is "error: " with the message; each of these
    is counted as an error; a non-zero exit whose diagnostic contains
    "already exists" is skipped; in every case the loop goes on with the
    next file. *)
Theorem adapter_failure_outcomes : forall run_ffmpeg makedirs cfg f caf wav bd trim
    cv sk er,
  let cmd := ffmpeg_cmd cfg caf wav bd trim in
  let st := status_of (snd (fst (convert_with_ffmpeg run_ffmpeg cfg f caf wav bd trim))) in
  (forall f' rc err, run_ffmpeg f cmd = Completed f' rc err -> rc <> 0%Z ->
     Py.contains "already exists" err = false -> err <> EmptyString ->
     st = "FFmpeg error: " ++ Py.join " " (Py.last_n 3 (Py.split "010"%char err)) /\
     bump st (cv, sk, er) = (cv, sk, S er)) /\
  (forall f' rc err, run_ffmpeg f cmd = Completed f' rc err -> rc <> 0%Z ->
     Py.contains "already exists" err = true ->
     st = "skipped (already exists)" /\ bump st (cv, sk, er) = (cv, S sk, er)) /\
  (forall msg, run_ffmpeg f cmd = Raised msg ->
     st = "Exception: " ++ msg /\ bump st (cv, sk, er) = (cv, sk, S er)) /\
  (forall msg, (exists o os, output_directory cfg = Some (o :: os)) ->
     makedirs f (dirname (wav_target cfg caf)) = inr msg ->
     let st' := status_of (snd (fst (convert_caf_to_wav run_ffmpeg makedirs cfg
                                      f caf bd trim))) in
     st' = "error: " ++ msg /\ bump st' (cv, sk, er) = (cv, sk, S er)) /\
  (forall running i rest c, running i = true ->
     convert_loop run_ffmpeg makedirs cfg running bd trim i (caf :: rest) f c =
     let '(f1, r, evs) := convert_caf_to_wav run_ffmpeg makedirs cfg f caf bd trim in
     let '(f2, c2, tr) := convert_loop run_ffmpeg makedirs cfg running bd trim (S i)
                            rest f1 (bump (status_of r) c) in
     (f2, c2, (EvPoll i :: evs ++ EvOutcome i caf (status_of r) :: tr)%list)).
Proof.
  intros run_ffmpeg makedirs cfg f caf wav bd trim cv sk er cmd st.
  subst cmd st; unfold convert_with_ffmpeg.
  split; [|split; [|split; [|split]]].
  - intros f' rc err Hr Hrc Hc He; rewrite Hr.
    apply Z.eqb_neq in Hrc; rewrite Hrc, Hc; cbn [status_of snd fst].
    unfold error_msg; apply String.eqb_neq in He; rewrite He.
    split; [reflexivity|]; apply bump_not_s; discriminate.
  - intros f' rc err Hr Hrc Hc; rewrite Hr.
    apply Z.eqb_neq in Hrc; rewrite Hrc, Hc; cbn [status_of snd fst].
    split; reflexivity.
  - intros msg Hr; rewrite Hr; cbn [status_of snd fst].
    split; [reflexivity|]; apply bump_not_s; discriminate.
  - intros msg [o [os Ho]] Hm; cbv zeta.
    unfold wav_target in Hm; rewrite Ho in Hm.
    unfold convert_caf_to_wav, wav_target; rewrite Ho, Hm; cbn [status_of snd fst].
    split; [reflexivity|]; apply bump_not_s; discriminate.
  - intros running i rest c Hrun; cbn [convert_loop]; rewrite Hrun; reflexivity.
Qed.

(** C7 counterexample: ffmpeg fails to decode an input whose name contains
    "already exists"; the job is counted as skipped, not as an error. *)
Lemma failed_decode_counted_skipped :
  let r := conversion_thread ffmpeg_bad_input mkdirs_ok (gui_cfg None false) []
             [["music"; "already exists.caf"]] (fun _ => true) in
  ffmpeg_bad_input [] (ffmpeg_cmd (gui_cfg None false) ["music"; "already exists.caf"]
                         ["music"; "already exists.wav"] "24" true)
  = Completed [] 1 ("music/already exists.caf: Invalid data found when processing input" ++ nl) /\
  skipped r = 1 /\ errors r = 0 /\ fs_exists (final_fs r) ["music"; "already exists.wav"] = false.
Proof. cbv zeta; repeat split; vm_compute; reflexivity. Qed.

(** C8: Scenario B.  When a scan (flat or recursive) finds one 32-bit WAV
    file and one 16-bit WAV file, in either order, with both targets
    requested, the 32-bit file yields one job per target, the 16-bit file
    none; it is counted among the WAV files found but not among the 32-bit
    ones, and no error is recorded for it. *)
Theorem scenario_b_jobs : forall sf_info sf_read sf_write makedirs f folder
    walk listing include_subdirs p32 p16 s32,
  (s32 = "FLOAT" \/ s32 = "PCM_32") ->
  sf_info f p32 = Some s32 ->
  sf_info f p16 = Some "PCM_16" ->
  (WavDown.find_wav_files folder walk listing include_subdirs = [p32; p16] \/
   WavDown.find_wav_files folder walk listing include_subdirs = [p16; p32]) ->
  let r := WavDown.process_files sf_info sf_read sf_write makedirs f folder walk
             listing include_subdirs true true in
  WavDown.found r = 2 /\ WavDown.found_32bit r = 1 /\
  filter is_classify_error (WavDown.trace r) = [] /\
  exists ok24 ok16,
    filter is_job (WavDown.trace r) =
      [EvJob p32 (WavDown.down_target p32 "24bit") 24 ok24;
       EvJob p32 (WavDown.down_target p32 "16bit") 16 ok16].
Proof.
  intros sf_info sf_read sf_write makedirs f folder walk listing sub p32 p16 s32
    Hs H32 H16 Hfind r.
  assert (B32 : WavDown.bits_of_subtype s32 = 32%Z)
    by (destruct Hs as [-> | ->]; reflexivity).
  assert (G32 : WavDown.get_bit_depth sf_info f p32 = (32%Z, []))
    by (unfold WavDown.get_bit_depth; rewrite H32, B32; reflexivity).
  assert (G16 : WavDown.get_bit_depth sf_info f p16 = (16%Z, []))
    by (unfold WavDown.get_bit_depth; rewrite H16; reflexivity).
  pose proof (WavDownProofs.job_events sf_read sf_write makedirs f p32 "24bit" 24)
    as [J1 [P1 C1]].
  destruct (WavDown.job sf_read sf_write makedirs f p32 "24bit" 24)
    as [f1 e1] eqn:Hj1; cbn [snd] in J1, P1, C1.
  pose proof (WavDownProofs.job_events sf_read sf_write makedirs f1 p32 "16bit" 16)
    as [J2 [P2 C2]].
  destruct (WavDown.job sf_read sf_write makedirs f1 p32 "16bit" 16)
    as [f2 e2] eqn:Hj2; cbn [snd] in J2, P2, C2.
  assert (Hloop : WavDown.convert_loop sf_read sf_write makedirs true true [p32] f
                  = (f2, (e1 ++ e2 ++ [])%list))
    by (cbn [WavDown.convert_loop]; rewrite Hj1, Hj2; reflexivity).
  subst r; unfold WavDown.process_files.
  destruct Hfind as [-> | ->]; cbn [WavDown.filter_32bit]; rewrite G32, G16;
    cbn [Z.eqb Pos.eqb app]; rewrite Hloop;
    cbn [WavDown.found WavDown.found_32bit WavDown.trace length].
  all: rewrite app_nil_r, !filter_app, J1, J2, C1, C2.
  all: split; [reflexivity|]; split; [reflexivity|]; split; [reflexivity|].
  all: do 2 eexists; reflexivity.
Qed.

(** A flat scan and a recursive scan of a folder with [a.wav] (32-bit
    float), [b.wav] (16-bit) and a file that is not a WAV file. *)
Lemma scenario_b_jobs_witness :
  let p32 := ["music"; "a.wav"] in
  let run walk listing sub :=
    WavDown.process_files sf_info_sample sf_read_sample sf_write_sample
      mkdirs_ok [] ["music"] walk listing sub true true in
  let ok r :=
    WavDown.found r = 2 /\ WavDown.found_32bit r = 1 /\
    filter is_classify_error (WavDown.trace r) = [] /\
    exists ok24 ok16,
      filter is_job (WavDown.trace r) =
        [EvJob p32 (WavDown.down_target p32 "24bit") 24 ok24;
         EvJob p32 (WavDown.down_target p32 "16bit") 16 ok16] in
  ok (run [] ["notes.txt"; "a.wav"; "b.wav"] false) /\
  ok (run [["music"; "b.wav"]; ["music"; "notes.txt"]; ["music"; "a.wav"]] [] true).
Proof.
  cbv zeta; split.
  - apply (scenario_b_jobs sf_info_sample sf_read_sample sf_write_sample mkdirs_ok []
             ["music"] [] ["notes.txt"; "a.wav"; "b.wav"] false
             ["music"; "a.wav"] ["music"; "b.wav"] "FLOAT");
      [left | | | left]; reflexivity.
  - apply (scenario_b_jobs sf_info_sample sf_read_sample sf_write_sample mkdirs_ok []
             ["music"] [["music"; "b.wav"]; ["music"; "notes.txt"]; ["music"; "a.wav"]]
             [] true ["music"; "a.wav"] ["music"; "b.wav"] "FLOAT");
      [left | | | right]; reflexivity.
Defined.

End Claims.
(** * Further properties of the code *)

Module StringFacts.

Lemma substring_full : forall s, substring 0 (String.length s) s = s.
Proof. induction s as [|c s IH]; simpl; [reflexivity|]; rewrite IH; reflexivity. Qed.

(** [s[n:]] is a suffix of [s], of length [len(s) - n]. *)
Lemma substring_suffix : forall s n, n <= String.length s ->
  (exists pre, s = pre ++ substring n (String.length s - n) s) /\
  String.length (substring n (String.length s - n) s) = String.length s - n.
Proof.
  induction s as [|c s IH]; intros n Hn.
  - simpl in Hn; assert (n = 0) by lia; subst; split;
      [exists ""; reflexivity | reflexivity].
  - destruct n as [|n].
    + rewrite Nat.sub_0_r, substring_full; split; [exists ""; reflexivity|reflexivity].
    + simpl in Hn |- *; destruct (IH n ltac:(lia)) as [[pre Hpre] Hl].
      split; [exists (String c pre); simpl; rewrite <- Hpre; reflexivity | exact Hl].
Qed.

Lemma string_app_assoc : forall a b c : string, a ++ (b ++ c) = (a ++ b) ++ c.
Proof. induction a as [|x a IH]; intros; simpl; [reflexivity|]; rewrite IH; reflexivity. Qed.

Lemma string_app_nil_r : forall a : string, a ++ "" = a.
Proof. induction a as [|x a IH]; simpl; [reflexivity|]; rewrite IH; reflexivity. Qed.

Lemma substring_app_r : forall t u n,
  substring (String.length t) n (t ++ u) = substring 0 n u.
Proof. induction t as [|c t IH]; intros; simpl; [reflexivity|apply IH]. Qed.

Lemma endswith_app : forall t u, Py.endswith (t ++ u) u = true.
Proof.
  intros t u; unfold Py.endswith.
  rewrite PathProofs.string_length_app.
  replace (String.length t + String.length u - String.length u) with (String.length t)
    by lia.
  rewrite substring_app_r, substring_full, String.eqb_refl, andb_true_r.
  apply Nat.leb_le; lia.
Qed.

(** Two four-character endings of the same string are equal. *)
Lemma endswith_same_length : forall s u v,
  String.length u = String.length v ->
  Py.endswith s u = true -> Py.endswith s v = true -> u = v.
Proof.
  unfold Py.endswith; intros s u v Hl Hu Hv.
  apply andb_prop in Hu as [_ Hu]; apply andb_prop in Hv as [_ Hv].
  apply String.eqb_eq in Hu, Hv; rewrite Hl in Hu; congruence.
Qed.

Lemma lower_app : forall a b, Py.lower (a ++ b) = Py.lower a ++ Py.lower b.
Proof. induction a as [|c a IH]; intros; simpl; [reflexivity|]; rewrite IH; reflexivity. Qed.

End StringFacts.

Module Extras.
Import StringFacts Observe.

Lemma display_path_spec : forall limit keep d,
  keep + 3 = limit ->
  String.length (Label.display_path limit keep d) <= limit /\
  (String.length d < limit -> Label.display_path limit keep d = d) /\
  (limit <= String.length d -> exists pre tail,
     d = pre ++ tail /\ String.length tail = keep /\
     Label.display_path limit keep d = "..." ++ tail).
Proof.
  intros limit keep d Hk; unfold Label.display_path.
  destruct (Nat.ltb_spec (String.length d) limit) as [Hlt|Hge].
  - split; [lia|]; split; [reflexivity|intro; lia].
  - destruct (substring_suffix d (String.length d - keep) ltac:(lia)) as [[pre Hpre] Hl].
    replace (String.length d - (String.length d - keep)) with keep in * by lia.
    split; [simpl; rewrite Hl; lia|]; split; [intro; lia|].
    intros _; exists pre, (substring (String.length d - keep) keep d).
    split; [exact Hpre|]; split; [exact Hl|reflexivity].
Qed.

(** The folder labels of the CAF GUI: a path shorter than the limit is shown
    as it is; a longer one as "..." and its last characters; the label never
    exceeds the limit. *)
Theorem folder_labels_bounded : forall d,
  (String.length (Label.browse_directory_label d) <= 60 /\
   (String.length d < 60 -> Label.browse_directory_label d = d) /\
   (60 <= String.length d -> exists pre tail,
      d = pre ++ tail /\ String.length tail = 57 /\
      Label.browse_directory_label d = "..." ++ tail)) /\
  (String.length (Label.browse_output_directory_label d) <= 50 /\
   (String.length d < 50 -> Label.browse_output_directory_label d = d) /\
   (50 <= String.length d -> exists pre tail,
      d = pre ++ tail /\ String.length tail = 47 /\
      Label.browse_output_directory_label d = "..." ++ tail)).
Proof.
  intros d; split; apply display_path_spec; reflexivity.
Qed.


Lemma wav_step_inv : forall s i,
  wav_inv s -> wav_inv (fst (WavButton.step s i)) /\
  match snd (WavButton.step s i) with
  | Some (a, b) => a || b = true
  | None => True
  end.
Proof.
  intros [p n] i [Hle Hiff]; cbn [WavButton.threads WavButton.is_processing] in *.
  destruct i as [fo ex a b|]; cbn [WavButton.step].
  - unfold WavButton.start_conversion; cbn [WavButton.is_processing].
    destruct p; [split; [split; assumption | exact I]|].
    destruct (WavButton.validate_inputs fo ex a b) eqn:Hv;
      [|split; [split; assumption | exact I]].
    unfold WavButton.validate_inputs in Hv.
    destruct (String.eqb fo ""); [discriminate|];
      destruct (negb ex); [discriminate|].
    assert (n = 0) by (destruct n; [reflexivity|]; destruct Hiff as [_ H];
      specialize (H ltac:(lia)); discriminate).
    subst; unfold wav_inv; cbn; split; [split; [lia|split; reflexivity]|].
    destruct a, b; try reflexivity; discriminate.
  - unfold WavButton.thread_exit; cbn.
    destruct n as [|n]; cbn; [split; [split; assumption|exact I]|].
    unfold wav_inv; cbn; split; [|exact I]; split; [lia|]; split; [discriminate|lia].
Qed.

Lemma wav_run_inv : forall inputs s,
  wav_inv s -> wav_inv (fst (WavButton.run s inputs)) /\
  Forall (fun t => fst t || snd t = true) (snd (WavButton.run s inputs)).
Proof.
  induction inputs as [|i rest IH]; intros s Hs; cbn [WavButton.run].
  - split; [exact Hs | constructor].
  - pose proof (wav_step_inv s i Hs) as [H1 H2].
    destruct (WavButton.step s i) as [s1 st]; cbn [fst snd] in *.
    destruct (IH s1 H1) as [H3 H4].
    destruct (WavButton.run s1 rest) as [s2 sts]; cbn [fst snd] in *.
    split; [exact H3|]; destruct st as [[a b]|]; [constructor; assumption | exact H4].
Qed.

(** The WAV GUI's button: over any sequence of presses and thread exits from
    the start, at most one processing thread is alive, [is_processing] is set
    exactly while it is, and every thread is started with at least one
    target depth selected. *)
Theorem wav_button_single_thread : forall inputs,
  let '(s, started) := WavButton.run WavButton.initial inputs in
  WavButton.threads s <= 1 /\
  (WavButton.is_processing s = true <-> WavButton.threads s = 1) /\
  Forall (fun t => fst t || snd t = true) started.
Proof.
  intros inputs.
  assert (H0 : wav_inv WavButton.initial) by (split; cbn; [lia | split; discriminate]).
  destruct (wav_run_inv inputs _ H0) as [[Hle Hiff] Hf].
  destruct (WavButton.run WavButton.initial inputs) as [s started]; cbn in *.
  split; [exact Hle|split; [exact Hiff|exact Hf]].
Qed.

Lemma caf_run_inv : forall inputs s,
  (CafButton.conversion_running s = true -> 1 <= CafButton.threads s) ->
  let s' := CafButton.run s inputs in
  CafButton.conversion_running s' = true -> 1 <= CafButton.threads s'.
Proof.
  induction inputs as [|i rest IH]; intros s Hs; cbn [CafButton.run fold_left];
    [exact Hs|].
  apply IH; destruct s as [r n]; cbn in Hs.
  destruct i as [d|]; cbn.
  - unfold CafButton.start_conversion; destruct d; cbn; [|exact Hs].
    destruct r; cbn; [discriminate | lia].
  - unfold CafButton.thread_exit; cbn; destruct n; cbn; [exact Hs|discriminate].
Qed.

(** The CAF GUI's button: whenever the flag is set a thread is alive, and
    pressing the button twice (cancel, then start) before that thread ends
    starts a second thread beside it, with the flag set again. *)
Theorem caf_button_second_thread : forall inputs,
  let s := CafButton.run CafButton.initial inputs in
  CafButton.conversion_running s = true ->
  let s' := CafButton.run s [CafButton.Press true; CafButton.Press true] in
  CafButton.conversion_running s' = true /\
  CafButton.threads s' = S (CafButton.threads s) /\
  2 <= CafButton.threads s'.
Proof.
  intros inputs s Hs s'.
  pose proof (caf_run_inv inputs CafButton.initial ltac:(cbn; discriminate) Hs) as H1.
  fold s in H1; subst s'; destruct s as [r n]; cbn in *; subst r; cbn.
  split; [reflexivity|split; [reflexivity|lia]].
Qed.

Lemma caf_button_second_thread_witness :
  let s := CafButton.run CafButton.initial [CafButton.Press true] in
  CafButton.conversion_running s = true /\
  CafButton.threads (CafButton.run s [CafButton.Press true; CafButton.Press true]) = 2.
Proof.
  split; [reflexivity|].
  destruct (caf_button_second_thread [CafButton.Press true] eq_refl) as [_ [H _]].
  exact H.
Defined.

(** ** Destinations never hit a source *)

Lemma basename_with_ext : forall pre p ext,
  basename (pre ++ with_ext p ext)%list = fst (splitext_name (basename p)) ++ ext.
Proof.
  intros; unfold basename, with_ext; rewrite app_assoc; apply last_last.
Qed.

Lemma wav_target_basename : forall cfg p, exists y,
  basename (CafGui.wav_target cfg p) = y ++ ".wav".
Proof.
  intros cfg p; unfold CafGui.wav_target, join.
  destruct (CafGui.output_directory cfg) as [[|d out]|].
  - eexists; apply (basename_with_ext []).
  - eexists; apply basename_with_ext.
  - eexists; apply (basename_with_ext []).
Qed.

(** No destination of the CAF GUI is a file that [find_caf_files] finds:
    whatever the output root, a destination's name ends in [.wav], so no
    job writes over a CAF file of the run. *)
Theorem wav_target_not_found_caf : forall cfg walk p q,
  In q (CafGui.find_caf_files walk) -> CafGui.wav_target cfg p <> q.
Proof.
  intros cfg walk p q Hq E; subst q.
  apply filter_In in Hq as [_ Hc].
  destruct (wav_target_basename cfg p) as [y Hy]; rewrite Hy, lower_app in Hc.
  change (Py.lower ".wav") with ".wav" in Hc.
  pose proof (endswith_same_length _ ".caf" ".wav" eq_refl Hc (endswith_app _ _)).
  discriminate.
Qed.

Lemma wav_target_not_found_caf_witness :
  In ["music"; "a.caf"] (CafGui.find_caf_files [["music"; "a.caf"]]) /\
  CafGui.wav_target (Samples.gui_cfg None false) ["music"; "a.caf"]
  <> ["music"; "a.caf"].
Proof.
  split; [left; reflexivity|].
  apply (wav_target_not_found_caf _ [["music"; "a.caf"]]); left; reflexivity.
Defined.

Lemma sibling_path_neq : forall (w : path) x y,
  (removelast w ++ [x] ++ [y])%list <> w.
Proof.
  intros w x y E.
  destruct w as [|a w']; [discriminate|].
  destruct (exists_last (l := a :: w') ltac:(discriminate)) as [l [b Hl]].
  rewrite Hl in E; rewrite removelast_last in E.
  apply (f_equal (@length string)) in E; rewrite !length_app in E; simpl in E; lia.
Qed.

(** Neither the downconverter nor the command-line converter writes onto the
    file it reads: [down_target w sub] and [out_path caf] always differ from
    their source. *)
Theorem writers_never_target_input : forall w sub caf,
  WavDown.down_target w sub <> w /\ CafCli.out_path caf <> caf.
Proof.
  intros; unfold WavDown.down_target, CafCli.out_path, join, dirname.
  rewrite <- !app_assoc; split; apply sibling_path_neq.
Qed.

(** ** The FFmpeg error text *)

Lemma split_nonempty : forall sep s, Py.split sep s <> [].
Proof.
  intros sep [|c s]; simpl; [discriminate|].
  destruct (Py.split sep s) as [|w ws]; [discriminate|].
  destruct (Ascii.eqb c sep); discriminate.
Qed.

(** [sep.join(s.split(sep)) == s] *)
Lemma split_join : forall sep s, Py.join (String sep "") (Py.split sep s) = s.
Proof.
  intros sep; induction s as [|c s IH]; [reflexivity|].
  cbn [Py.split]; pose proof (split_nonempty sep s) as Hne.
  destruct (Py.split sep s) as [|w ws]; [contradiction|].
  destruct (Ascii.eqb c sep) eqn:Hc.
  - apply Ascii.eqb_eq in Hc; rewrite Hc, <- IH; reflexivity.
  - destruct ws as [|w' ws]; [simpl in IH |- *; rewrite IH; reflexivity|].
    change (Py.join (String sep "") (String c w :: w' :: ws))
      with (String c w ++ String sep "" ++ Py.join (String sep "") (w' :: ws)).
    change (Py.join (String sep "") (w :: w' :: ws))
      with (w ++ String sep "" ++ Py.join (String sep "") (w' :: ws)) in IH.
    rewrite <- IH; reflexivity.
Qed.

Lemma split_pieces : forall sep s,
  Forall (fun w => ~ In sep (list_ascii_of_string w)) (Py.split sep s).
Proof.
  intros sep; induction s as [|c s IH]; cbn [Py.split].
  - repeat constructor; simpl; tauto.
  - pose proof (split_nonempty sep s) as Hne.
    destruct (Py.split sep s) as [|w ws]; [contradiction|].
    inversion IH as [|w0 ws0 Hw Hws]; subst.
    destruct (Ascii.eqb c sep) eqn:Hc.
    + constructor; [simpl; tauto|constructor; assumption].
    + constructor; [|exact Hws].
      simpl; intros [E|E]; [subst; rewrite Ascii.eqb_refl in Hc; discriminate|].
      exact (Hw E).
Qed.

Lemma join_skipn : forall sep l k, exists pre,
  Py.join sep l = pre ++ Py.join sep (skipn k l).
Proof.
  intros sep l; induction l as [|x l IH]; intros k.
  - exists ""; rewrite skipn_nil; reflexivity.
  - destruct k as [|k]; [exists ""; reflexivity|].
    cbn [skipn]; destruct (IH k) as [pre Hpre].
    destruct l as [|y l].
    + exists x; rewrite skipn_nil; simpl; rewrite string_app_nil_r; reflexivity.
    + exists (x ++ sep ++ pre).
      change (Py.join sep (x :: y :: l)) with (x ++ sep ++ Py.join sep (y :: l)).
      rewrite Hpre, !string_app_assoc; reflexivity.
Qed.

(** The error text of a failed ffmpeg run is made of the last lines of its
    standard error: one to three pieces, none containing a newline, which
    joined by newlines form a suffix of the standard error, and which are
    all of it when it has at most three lines. *)
Theorem error_msg_last_lines : forall err,
  err <> "" ->
  1 <= length (CafGui.error_msg err) <= 3 /\
  Forall (fun w => ~ In "010"%char (list_ascii_of_string w)) (CafGui.error_msg err) /\
  (exists pre, err = pre ++ Py.join Samples.nl (CafGui.error_msg err)) /\
  (length (Py.split "010" err) <= 3 ->
   Py.join Samples.nl (CafGui.error_msg err) = err).
Proof.
  intros err Hne; unfold CafGui.error_msg.
  destruct (String.eqb_spec err "") as [E|_]; [contradiction|].
  unfold Py.last_n.
  pose proof (split_nonempty "010" err) as Hs.
  pose proof (split_pieces "010" err) as Hp.
  pose proof (split_join "010" err) as Hj.
  set (l := Py.split "010" err) in *.
  split; [|split; [|split]].
  - rewrite length_skipn; destruct l; [contradiction|simpl length; lia].
  - apply Forall_forall; intros w Hw; apply (proj1 (Forall_forall _ l) Hp).
    rewrite <- (firstn_skipn (length l - 3) l); apply in_or_app; right; exact Hw.
  - destruct (join_skipn Samples.nl l (length l - 3)) as [pre Hpre].
    exists pre; rewrite <- Hpre; unfold Samples.nl; symmetry; exact Hj.
  - intros Hle; replace (length l - 3) with 0 by lia; exact Hj.
Qed.

Lemma error_msg_last_lines_witness :
  let err := "a" ++ Samples.nl ++ "b" ++ Samples.nl ++ "c" ++ Samples.nl ++ "d" in
  err <> "" /\ CafGui.error_msg err = ["b"; "c"; "d"] /\
  exists pre, err = pre ++ Py.join Samples.nl (CafGui.error_msg err).
Proof.
  split; [discriminate|]; split; [reflexivity|].
  apply (error_msg_last_lines ("a" ++ Samples.nl ++ "b" ++ Samples.nl ++ "c"
                                 ++ Samples.nl ++ "d")); discriminate.
Defined.

(** ** CAF GUI runs *)

Lemma fs_exists_same : forall f1 f p,
  (forall q, fs_lookup f1 q = fs_lookup f q) -> fs_exists f1 p = fs_exists f p.
Proof.
  intros f1 f p Hl.
  pose proof (CafGuiEnvProofs.fs_exists_lookup f1 p) as H1.
  pose proof (CafGuiEnvProofs.fs_exists_lookup f p) as H2.
  rewrite Hl in H1.
  destruct (fs_exists f1 p), (fs_exists f p); try reflexivity.
  - symmetry; apply H2, H1; reflexivity.
  - apply H1, H2; reflexivity.
Qed.

Lemma conv_bump : forall st c,
  conv (CafGui.bump st c) = conv c + (if String.eqb st "success" then 1 else 0).
Proof.
  intros st [[a b] d]; unfold CafGui.bump.
  destruct (String.eqb st "success"); [simpl; lia|].
  destruct (Py.startswith st "skipped"); simpl; lia.
Qed.

Section CafRun.

Variable run_ffmpeg : fs -> list arg -> proc_result.
Variable makedirs : fs -> path -> fs + string.
Variable cfg : CafGui.config.

Lemma convert_caf_to_wav_invokes : forall f caf bd trim,
  let '(_, r, evs) := CafGui.convert_caf_to_wav run_ffmpeg makedirs cfg f caf bd trim in
  length (filter is_invoke evs) <= 1 /\
  (String.eqb (CafGui.status_of r) "success" = true ->
   length (filter is_invoke evs) = 1).
Proof.
  intros f caf bd trim.
  assert (Hm : forall f1, let '(_, r, evs) :=
    CafGui.convert_after_mkdirs run_ffmpeg cfg f1 caf (CafGui.wav_target cfg caf) bd trim in
    length (filter is_invoke evs) <= 1 /\
    (String.eqb (CafGui.status_of r) "success" = true ->
     length (filter is_invoke evs) = 1)).
  { intros f1; unfold CafGui.convert_after_mkdirs.
    destruct (_ && _); [split; [simpl; lia | discriminate]|].
    destruct (negb _); [split; [simpl; lia | discriminate]|].
    pose proof (CafGuiProofs.convert_with_ffmpeg_events run_ffmpeg cfg f1 caf
                  (CafGui.wav_target cfg caf) bd trim) as He.
    destruct (CafGui.convert_with_ffmpeg run_ffmpeg cfg f1 caf _ bd trim)
      as [[f2 r] evs]; cbn [snd] in He; subst evs.
    split; [simpl; lia | reflexivity]. }
  unfold CafGui.convert_caf_to_wav; cbv zeta.
  destruct (CafGui.output_directory cfg) as [[|d out]|]; [apply Hm| |apply Hm].
  destruct (makedirs f _) as [f1|msg]; [apply Hm|].
  split; [simpl; lia | intro H; simpl in H; discriminate H].
Qed.

Lemma convert_loop_invokes : forall running bd trim files i f c f' c' tr,
  CafGui.convert_loop run_ffmpeg makedirs cfg running bd trim i files f c
  = (f', c', tr) ->
  conv c' <= conv c + length (filter is_invoke tr) /\
  length (filter is_invoke tr) <= length (filter is_outcome tr) /\
  outcomes_of tr = combine (seq i (length (filter is_outcome tr)))
                           (firstn (length (filter is_outcome tr)) files).
Proof.
  intros running bd trim files; induction files as [|caf rest IH];
    intros i f c f' c' tr H; cbn [CafGui.convert_loop] in H.
  - inversion H; subst; simpl; repeat split; lia.
  - destruct (running i); cbn [negb] in H.
    + pose proof (convert_caf_to_wav_invokes f caf bd trim) as Hi.
      pose proof (CafGuiProofs.convert_caf_to_wav_events run_ffmpeg makedirs cfg
                    f caf bd trim) as He.
      destruct (CafGui.convert_caf_to_wav run_ffmpeg makedirs cfg f caf bd trim)
        as [[f1 r] evs] eqn:Hc; cbn [snd] in He.
      destruct (CafGui.convert_loop run_ffmpeg makedirs cfg running bd trim (S i) rest
                  f1 (CafGui.bump (CafGui.status_of r) c)) as [[f2 c2] tr'] eqn:Hl.
      inversion H; subst; clear H.
      destruct (IH _ _ _ _ _ _ Hl) as [H1 [H2 H3]].
      rewrite conv_bump in H1; destruct Hi as [Hi1 Hi2].
      assert (Ho : filter is_outcome evs = [] /\ outcomes_of evs = [])
        by (destruct He as [-> | ->]; split; reflexivity).
      destruct Ho as [Ho1 Ho2].
      unfold outcomes_of in *; cbn [filter is_outcome is_invoke flat_map app].
      rewrite !filter_app, flat_map_app, Ho1, Ho2, !length_app;
        cbn [filter is_outcome is_invoke flat_map app length].
      split; [|split].
      * destruct (String.eqb (CafGui.status_of r) "success");
          [specialize (Hi2 eq_refl)|]; lia.
      * lia.
      * rewrite H3; reflexivity.
    + inversion H; subst; simpl; repeat split; lia.
Qed.

(** In a CAF run, a job counts as converted only after an ffmpeg run, and
    each attempted job starts ffmpeg at most once: the converted counter is
    at most the number of ffmpeg invocations, which is at most the number of
    jobs attempted. *)
Theorem conversion_thread_invocations : forall f walk running,
  let r := CafGui.conversion_thread run_ffmpeg makedirs cfg f walk running in
  CafGui.converted r <= length (filter is_invoke (CafGui.trace r)) <=
  CafGui.attempted r.
Proof.
  intros f walk running r; subst r; unfold CafGui.conversion_thread.
  destruct (negb (CafGui.ffmpeg_available cfg)); [simpl; lia|].
  destruct (CafGui.find_caf_files walk) as [|c0 cs] eqn:Hfiles; [simpl; lia|].
  rewrite <- Hfiles.
  destruct (CafGui.convert_loop run_ffmpeg makedirs cfg running (CafGui.bit_depth cfg)
              (CafGui.trim_silence cfg) 0 (CafGui.find_caf_files walk) f (0, 0, 0))
    as [[f' [[cv sk] er]] tr] eqn:Hl.
  destruct (convert_loop_invokes _ _ _ _ _ _ _ _ _ _ Hl) as [H1 [H2 _]].
  unfold CafGui.attempted; cbn [CafGui.converted CafGui.trace]; simpl in H1; lia.
Qed.

(** A CAF run works through the found files in the order [find_caf_files]
    lists them, numbering jobs from 0: the outcomes recorded are those of the
    first [attempted] files, in order. *)
Theorem conversion_thread_order : forall f walk running,
  let r := CafGui.conversion_thread run_ffmpeg makedirs cfg f walk running in
  outcomes_of (CafGui.trace r)
  = combine (seq 0 (CafGui.attempted r))
            (firstn (CafGui.attempted r) (CafGui.find_caf_files walk)).
Proof.
  intros f walk running r; subst r; unfold CafGui.conversion_thread.
  destruct (negb (CafGui.ffmpeg_available cfg)); [reflexivity|].
  destruct (CafGui.find_caf_files walk) as [|c0 cs] eqn:Hfiles; [reflexivity|].
  rewrite <- Hfiles.
  destruct (CafGui.convert_loop run_ffmpeg makedirs cfg running (CafGui.bit_depth cfg)
              (CafGui.trim_silence cfg) 0 (CafGui.find_caf_files walk) f (0, 0, 0))
    as [[f' [[cv sk] er]] tr] eqn:Hl.
  destruct (convert_loop_invokes _ _ _ _ _ _ _ _ _ _ Hl) as [_ [_ H3]].
  unfold CafGui.attempted; cbn [CafGui.trace]; exact H3.
Qed.

(** When ffmpeg is available and directory creation succeeds without
    touching existing files, a job starts ffmpeg exactly when overwriting is
    enabled or its destination does not exist yet. *)
Theorem job_invokes_iff : forall f caf bd trim,
  CafGui.ffmpeg_available cfg = true ->
  (forall d, exists f1, makedirs f d = inl f1 /\
                        forall p, fs_lookup f1 p = fs_lookup f p) ->
  (snd (CafGui.convert_caf_to_wav run_ffmpeg makedirs cfg f caf bd trim) <> [] <->
   CafGui.overwrite cfg = true \/ fs_exists f (CafGui.wav_target cfg caf) = false).
Proof.
  intros f caf bd trim Hav Hmk.
  assert (Hm : forall f1, (forall p, fs_lookup f1 p = fs_lookup f p) ->
    (snd (CafGui.convert_after_mkdirs run_ffmpeg cfg f1 caf (CafGui.wav_target cfg caf)
            bd trim) <> [] <->
     CafGui.overwrite cfg = true \/ fs_exists f (CafGui.wav_target cfg caf) = false)).
  { intros f1 Hl; unfold CafGui.convert_after_mkdirs.
    rewrite (fs_exists_same f1 f _ Hl), Hav; cbn [negb].
    destruct (CafGui.overwrite cfg), (fs_exists f (CafGui.wav_target cfg caf));
      cbn [andb negb];
      try (rewrite CafGuiProofs.convert_with_ffmpeg_events;
           split; [intros _; auto | discriminate]).
    split; [intro H; contradiction H; reflexivity | intros [H|H]; discriminate H]. }
  unfold CafGui.convert_caf_to_wav; cbv zeta.
  destruct (CafGui.output_directory cfg) as [[|d out]|];
    [apply Hm; reflexivity| |apply Hm; reflexivity].
  destruct (Hmk (dirname (CafGui.wav_target cfg caf))) as [f1 [-> Hl]].
  apply Hm, Hl.
Qed.

End CafRun.

Lemma job_invokes_iff_witness :
  snd (CafGui.convert_caf_to_wav Samples.ffmpeg_ok Samples.mkdirs_ok
         (Samples.gui_cfg (Some ["out"]) false) [] ["music"; "a.caf"] "24" false)
  <> [].
Proof.
  apply (proj2 (job_invokes_iff Samples.ffmpeg_ok Samples.mkdirs_ok
                  (Samples.gui_cfg (Some ["out"]) false) [] ["music"; "a.caf"] "24" false
                  eq_refl (fun d => ex_intro _ [] (conj eq_refl (fun p => eq_refl))))).
  right; reflexivity.
Defined.

(** ** Downconversion runs *)

Section DownRun.

Variable sf_info : fs -> path -> option string.
Variable sf_read : fs -> path -> option string.
Variable sf_write : fs -> path -> string -> string -> option fs.
Variable makedirs : fs -> path -> fs + string.

(** The downconverter's jobs: for each found WAV file classified as 32-bit,
    in the order they were found, a 24-bit job into the [24bit] subfolder
    (when selected) and then a 16-bit job into the [16bit] subfolder (when
    selected); no other job is run. *)
Theorem process_files_job_plan : forall f folder walk listing sub to24 to16,
  job_keys (WavDown.trace (WavDown.process_files sf_info sf_read sf_write makedirs f
                             folder walk listing sub to24 to16))
  = flat_map (down_plan to24 to16)
      (filter (fun w => Z.eqb (fst (WavDown.get_bit_depth sf_info f w)) 32)
              (WavDown.find_wav_files folder walk listing sub)).
Proof. intros; apply (DownPlanProofs.process_files_obs sf_info sf_read sf_write makedirs). Qed.

(** Every file the downconverter writes is the [24bit] copy of a 32-bit
    source, written as PCM_24 with 24-bit selected, or its [16bit] copy,
    written as PCM_16 with 16-bit selected. *)
Theorem process_files_writes : forall f folder walk listing sub to24 to16,
  Forall (fun x => exists w,
            In w (filter (fun w => Z.eqb (fst (WavDown.get_bit_depth sf_info f w)) 32)
                         (WavDown.find_wav_files folder walk listing sub)) /\
            ((to24 = true /\ x = (WavDown.down_target w "24bit", "PCM_24")) \/
             (to16 = true /\ x = (WavDown.down_target w "16bit", "PCM_16"))))
    (writes_of (WavDown.trace (WavDown.process_files sf_info sf_read sf_write makedirs
                                 f folder walk listing sub to24 to16))).
Proof. intros; apply (DownPlanProofs.process_files_obs sf_info sf_read sf_write makedirs). Qed.

End DownRun.

(** ** The command-line converter *)

Section CliRun.

Variable run_ffmpeg : fs -> list arg -> proc_result.
Variable mkdir : fs -> path -> fs + string.

(** How the command-line converter's [main] ends: nothing is done when the
    folder is missing; otherwise the found files are converted in order,
    each conversion starting on the filesystem the previous one left.
    Either all of them return (a non-zero ffmpeg exit does not end the run),
    or the first exception (from [mkdir] or from starting ffmpeg), raised on
    the filesystem reached after the files before it, ends the program and
    leaves the rest unattempted. *)
Theorem main_outcome : forall f root_exists walk,
  match CafCliMain.main run_ffmpeg mkdir f root_exists walk with
  | CafCliMain.NoFolder => root_exists = false
  | CafCliMain.Finished f' rs =>
      root_exists = true /\ map fst rs = CafCliMain.find_caf_files walk /\
      CafCliMain.cli_steps run_ffmpeg mkdir f rs f'
  | CafCliMain.Aborted fA rs msg =>
      root_exists = true /\
      exists caf rest f0,
        CafCliMain.find_caf_files walk = (map fst rs ++ caf :: rest)%list /\
        CafCliMain.cli_steps run_ffmpeg mkdir f rs f0 /\
        CafCliMain.convert_caf_to_wav run_ffmpeg mkdir f0 caf (CafCli.out_path caf)
        = inr (fA, msg)
  end.
Proof.
  intros f root_exists walk; unfold CafCliMain.main.
  destruct root_exists; [cbn [negb]|reflexivity].
  pose proof (CliProofs.main_loop_steps run_ffmpeg mkdir
                (CafCliMain.find_caf_files walk) f []) as H.
  destruct (CafCliMain.main_loop run_ffmpeg mkdir f (CafCliMain.find_caf_files walk) [])
    as [|f' rs|fA rs msg]; [contradiction| |].
  - destruct H as [rs' [E1 [E2 E3]]]; cbn [rev app] in E1; subst rs'.
    split; [reflexivity|split; assumption].
  - destruct H as [rs' [c [r [f0 [E1 [E2 [E3 E4]]]]]]]; cbn [rev app] in E1; subst rs'.
    split; [reflexivity|].
    exists c, r, f0; split; [exact E2|split; assumption].
Qed.

(** Without exceptions, [main] attempts every found file in order and
    finishes; each result is [True] exactly when that file's ffmpeg run, on
    the filesystem left by the previous file, exited with 0. *)
Theorem main_no_raise : forall f walk,
  (forall f d, exists f1, mkdir f d = inl f1) ->
  (forall f cmd, exists f' rc err, run_ffmpeg f cmd = Completed f' rc err) ->
  exists f' rs, CafCliMain.main run_ffmpeg mkdir f true walk = CafCliMain.Finished f' rs /\
    map fst rs = CafCliMain.find_caf_files walk /\
    CafCliMain.cli_steps run_ffmpeg mkdir f rs f'.
Proof.
  intros f walk Hmk Hrun.
  exact (CliProofs.main_finishes run_ffmpeg mkdir f walk Hmk Hrun).
Qed.

End CliRun.

(** An ffmpeg that fails on every input, and a [mkdir] that never fails. *)
Lemma main_no_raise_witness :
  exists f' rs,
    CafCliMain.main Samples.ffmpeg_broken Samples.mkdirs_ok [] true
      [["music"; "a.caf"]; ["music"; "b.CAF"]; ["music"; "c.caf"]]
    = CafCliMain.Finished f' rs /\
    map fst rs = CafCliMain.find_caf_files
                   [["music"; "a.caf"]; ["music"; "b.CAF"]; ["music"; "c.caf"]] /\
    CafCliMain.cli_steps Samples.ffmpeg_broken Samples.mkdirs_ok [] rs f'.
Proof.
  apply (main_no_raise Samples.ffmpeg_broken Samples.mkdirs_ok []
           [["music"; "a.caf"]; ["music"; "b.CAF"]; ["music"; "c.caf"]]
           (fun f d => ex_intro _ f eq_refl)
           (fun f cmd => ex_intro _ f (ex_intro _ 1%Z (ex_intro _ _ eq_refl)))).
Defined.

End Extras.
